(** * PCD-Lite: query parsing, filter normalisation and ranking

    A shallow embedding of [app/schema.py], [app/mapping.py] and
    [app/recs.py], followed by the properties of the query interpreter,
    the filter normaliser and the ranking engine.

    Conventions of the embedding.
    - Python [str] is [string]; the text handled is ASCII, so [lower],
      [title], [strip] and the regular-expression classes [\d], [\s], [\w]
      are the ASCII restrictions of the Unicode ones.
    - Python [int] is [Z]; [Optional[int]] is [option Z].
    - Python [float] is modelled by the exact rationals [Q]: the ranking
      only depends on the order of the scores, and the numbers read from a
      query are exact whenever the text holds an integer.
    - A [dict] iterated with [.items()] is the association list of its
      literal, in insertion order; [set(...)] is a [gset]. *)

From Stdlib Require Import ZArith QArith Qabs Qminmax String Ascii List Lia Lqa.
From stdpp Require Import base decidable option list sorting gmap strings.

Local Open Scope string_scope.
Local Open Scope list_scope.

(** ** Python string primitives *)

Module Str.

Definition code (c : ascii) : nat := nat_of_ascii c.

Definition between (lo hi n : nat) : bool := Nat.leb lo n && Nat.leb n hi.

Definition is_upper (c : ascii) : bool := between 65 90 (code c).
Definition is_lower (c : ascii) : bool := between 97 122 (code c).
Definition is_alpha (c : ascii) : bool := is_upper c || is_lower c.
Definition is_digit (c : ascii) : bool := between 48 57 (code c).

(** [str.isspace] on one character: TAB, LF, VT, FF, CR, the four
    separators FS, GS, RS, US, and the space. *)
Definition is_space (c : ascii) : bool :=
  between 9 13 (code c) || between 28 32 (code c).

(** [\w]: letters, digits and the underscore. *)
Definition is_word (c : ascii) : bool :=
  is_alpha c || is_digit c || Nat.eqb (code c) 95.

Definition lower_char (c : ascii) : ascii :=
  if is_upper c then ascii_of_nat (code c + 32) else c.

Definition upper_char (c : ascii) : ascii :=
  if is_lower c then ascii_of_nat (code c - 32) else c.

(** [s.lower()] *)
Fixpoint lower (s : string) : string :=
  match s with
  | EmptyString => EmptyString
  | String c s' => String (lower_char c) (lower s')
  end.

(** [s.title()]: a letter that follows a letter is lowercased, any other
    letter is uppercased. *)
Fixpoint title_from (previous_is_cased : bool) (s : string) : string :=
  match s with
  | EmptyString => EmptyString
  | String c s' =>
      String (if previous_is_cased then lower_char c else upper_char c)
             (title_from (is_alpha c) s')
  end.

Definition title (s : string) : string := title_from false s.

Fixpoint lstrip (s : string) : string :=
  match s with
  | EmptyString => EmptyString
  | String c s' => if is_space c then lstrip s' else s
  end.

Fixpoint rstrip (s : string) : string :=
  match s with
  | EmptyString => EmptyString
  | String c s' =>
      match rstrip s' with
      | EmptyString => if is_space c then EmptyString else String c EmptyString
      | t => String c t
      end
  end.

(** [s.strip()] *)
Definition strip (s : string) : string := rstrip (lstrip s).

(** [needle in s] for two strings: substring test. *)
Fixpoint contains (needle s : string) : bool :=
  String.prefix needle s ||
  match s with
  | EmptyString => false
  | String _ s' => contains needle s'
  end.

(** [x in l] for a string and a list of strings: membership. *)
Definition mem (x : string) (l : list string) : bool :=
  existsb (String.eqb x) l.

(** [any(word in s for word in words)] *)
Definition contains_any (words : list string) (s : string) : bool :=
  existsb (fun w => contains w s) words.

(** [sep.join(parts)] *)
Fixpoint join (sep : string) (parts : list string) : string :=
  match parts with
  | [] => EmptyString
  | [p] => p
  | p :: rest => p ++ sep ++ join sep rest
  end.

(** The first [n] characters of [s]. *)
Fixpoint take (n : nat) (s : string) : string :=
  match n, s with
  | S n', String c s' => String c (take n' s')
  | _, _ => EmptyString
  end.

End Str.

(** ** The fragment of Python's [re] used by the parser

    Backtracking matcher with greedy quantifiers: alternatives are tried in
    the order of [re], and the first complete match is the answer. *)

Module Re.

Inductive atom : Type :=
| Chr (c : ascii)   (* a literal character *)
| Digit             (* \d *)
| Space             (* \s *)
| Word.             (* \w *)

Inductive regex : Type :=
| Eps
| Atom (a : atom)
| Star (a : atom)          (* a*  *)
| Plus (a : atom)          (* a+  *)
| Opt (r : regex)          (* r?  *)
| Seq (r1 r2 : regex)
| Group (r : regex)        (* ( r ), the one capturing group *)
| Boundary.                (* \b *)

Definition atom_matches (a : atom) (c : ascii) : bool :=
  match a with
  | Chr d => Ascii.eqb d c
  | Digit => Str.is_digit c
  | Space => Str.is_space c
  | Word => Str.is_word c
  end.

(** A literal word, character by character. *)
Fixpoint lit (s : string) : regex :=
  match s with
  | EmptyString => Eps
  | String c EmptyString => Atom (Chr c)
  | String c s' => Seq (Atom (Chr c)) (lit s')
  end.

(** A successful attempt yields the text of group 1 and the text that
    follows the match. *)
Definition answer : Type := string * string.

Definition is_word_opt (o : option ascii) : bool :=
  match o with Some c => Str.is_word c | None => false end.

Definition next_char (s : string) : option ascii :=
  match s with String c _ => Some c | EmptyString => None end.

(** Greedy repetition of an atom: take one more character first, and
    fall back to the continuation at the current position. *)
Fixpoint star (a : atom) (prev : option ascii) (s : string)
    (k : option ascii -> string -> option answer) : option answer :=
  match s with
  | String c s' =>
      if atom_matches a c then
        match star a (Some c) s' k with
        | Some r => Some r
        | None => k prev s
        end
      else k prev s
  | EmptyString => k prev s
  end.

(** [run r prev s cap k]: match [r] at the head of [s], where [prev] is
    the character before it and [cap] the text captured so far, then go
    on with [k]. *)
Fixpoint run (r : regex) (prev : option ascii) (s : string) (cap : string)
    (k : option ascii -> string -> string -> option answer) : option answer :=
  match r with
  | Eps => k prev s cap
  | Atom a =>
      match s with
      | String c s' => if atom_matches a c then k (Some c) s' cap else None
      | EmptyString => None
      end
  | Star a => star a prev s (fun p s' => k p s' cap)
  | Plus a =>
      match s with
      | String c s' =>
          if atom_matches a c then star a (Some c) s' (fun p s'' => k p s'' cap)
          else None
      | EmptyString => None
      end
  | Opt r' =>
      match run r' prev s cap k with
      | Some x => Some x
      | None => k prev s cap
      end
  | Seq r1 r2 => run r1 prev s cap (fun p s' cap' => run r2 p s' cap' k)
  | Group r' =>
      run r' prev s cap
        (fun p s' _ => k p s' (Str.take (String.length s - String.length s') s))
  | Boundary =>
      if xorb (is_word_opt prev) (is_word_opt (next_char s)) then k prev s cap
      else None
  end.

Fixpoint has_group (r : regex) : bool :=
  match r with
  | Group _ => true
  | Opt r' => has_group r'
  | Seq r1 r2 => has_group r1 || has_group r2
  | _ => false
  end.

(** One attempt at a position: the text [findall] reports for it (group 1
    when the pattern has a group, the whole match otherwise) and the
    length of the match. *)
Definition match_here (r : regex) (prev : option ascii) (s : string)
    : option (string * nat) :=
  match run r prev s EmptyString (fun _ rest cap => Some (cap, rest)) with
  | Some (cap, rest) =>
      let n := String.length s - String.length rest in
      Some (if has_group r then cap else Str.take n s, n)
  | None => None
  end.

(** [re.findall(r, s)] for a pattern with one group: scan from the left,
    and after a match go on where it ended ([skip] characters are still
    inside the last match). *)
Fixpoint findall_from (r : regex) (prev : option ascii) (s : string)
    (skip : nat) : list string :=
  match s with
  | EmptyString =>
      match skip, match_here r prev s with
      | O, Some (cap, _) => [cap]
      | _, _ => []
      end
  | String c s' =>
      match skip with
      | S n => findall_from r (Some c) s' n
      | O =>
          match match_here r prev s with
          | Some (cap, n) => cap :: findall_from r (Some c) s' (n - 1)
          | None => findall_from r (Some c) s' 0
          end
      end
  end.

Definition findall (r : regex) (s : string) : list string :=
  findall_from r None s 0.

End Re.

(** ** [app/schema.py] *)

Inductive QueryType : Type := VOICE | TEXT.

(** The two A/B strategies, ["A"] and ["B"]. *)
Inductive RecommendationStrategy : Type := POPULARITY | SIMILARITY.

Record Movie : Type := {
  id : Z;
  title : string;
  genre : list string;
  cast : list string;
  overview : string;
  runtime : Z;
  popularity : Q;
  release_year : Z;
  director : string;
  rating : Q
}.

Record ParsedFilters : Type := {
  genres : list string;
  actors : list string;
  runtime_min : option Z;
  runtime_max : option Z;
  vibe : option string;
  keywords : list string;
  year_min : option Z;
  year_max : option Z
}.

(** [ParsedFilters()]: every field at its default. *)
Definition no_filters : ParsedFilters :=
  {| genres := []; actors := []; runtime_min := None; runtime_max := None;
     vibe := None; keywords := []; year_min := None; year_max := None |}.

(** ** Numbers read from text *)

Module Num.

Definition digit_value (c : ascii) : Z := Z.of_nat (Str.code c - 48).

(** The value of a run of decimal digits, most significant first. *)
Fixpoint digits_from (acc : Z) (s : string) : Z :=
  match s with
  | EmptyString => acc
  | String c s' => digits_from (10 * acc + digit_value c) s'
  end.

(** [int(s)] for a string of decimal digits. *)
Definition int_of_string (s : string) : Z := digits_from 0 s.

(** The text before the first dot, and the text after it. *)
Fixpoint split_dot (s : string) : string * string :=
  match s with
  | EmptyString => (EmptyString, EmptyString)
  | String c s' =>
      if Ascii.eqb c "." then (EmptyString, s')
      else let '(a, b) := split_dot s' in (String c a, b)
  end.

Definition pow10 (n : nat) : positive := Nat.iter n (Pos.mul 10) 1%positive.

(** [float(s)] for digits with an optional fraction, as a rational. *)
Definition float_of_string (s : string) : Q :=
  let '(whole, fraction) := split_dot s in
  Qmake (int_of_string (whole ++ fraction)) (pow10 (String.length fraction)).

(** [int(x)] for a float: truncation towards zero. *)
Definition int_of_float (x : Q) : Z := Z.quot (Qnum x) (Zpos (Qden x)).

End Num.

(** ** [app/mapping.py]: [QueryParser] *)

Module QueryParser.
Import Re.

(** Common terms to standardised genres, in the order of the literal. *)
Definition genre_mapping : list (string * list string) :=
  [ ("comedy", ["comedy"; "funny"; "humor"; "humorous"; "laugh"]);
    ("drama", ["drama"; "serious"; "emotional"; "touching"]);
    ("thriller", ["thriller"; "suspense"; "mystery"; "suspenseful"]);
    ("action", ["action"; "adventure"; "exciting"; "fast-paced"]);
    ("romance", ["romance"; "romantic"; "love"; "romantic comedy"; "rom-com"]);
    ("horror", ["horror"; "scary"; "frightening"; "terrifying"]);
    ("sci-fi", ["sci-fi"; "science fiction"; "futuristic"; "space"; "alien"]);
    ("fantasy", ["fantasy"; "magical"; "wizard"; "magic"]);
    ("crime", ["crime"; "criminal"; "gangster"; "mob"; "detective"]);
    ("biography", ["biography"; "biographical"; "true story"; "real story"]);
    ("history", ["historical"; "history"; "period piece"]);
    ("family", ["family"; "kids"; "children"; "family-friendly"]) ].

(** Actor name variations. *)
Definition actor_mapping : list (string * list string) :=
  [ ("tom hanks", ["tom hanks"; "thomas hanks"]);
    ("leonardo dicaprio", ["leonardo dicaprio"; "leo dicaprio"]);
    ("morgan freeman", ["morgan freeman"]);
    ("robert de niro", ["robert de niro"; "bobby de niro"]);
    ("al pacino", ["al pacino"; "alfredo pacino"]);
    ("brad pitt", ["brad pitt"; "bradley pitt"]);
    ("matt damon", ["matt damon"; "matthew damon"]);
    ("julia roberts", ["julia roberts"]);
    ("meryl streep", ["meryl streep"]);
    ("denzel washington", ["denzel washington"]);
    ("keanu reeves", ["keanu reeves"]);
    ("christian bale", ["christian bale"]);
    ("heath ledger", ["heath ledger"]);
    ("robin williams", ["robin williams"]);
    ("anthony hopkins", ["anthony hopkins"]);
    ("jodie foster", ["jodie foster"]);
    ("harrison ford", ["harrison ford"]);
    ("mark hamill", ["mark hamill"]);
    ("carrie fisher", ["carrie fisher"]);
    ("samuel l. jackson", ["samuel l. jackson"; "sam jackson"]);
    ("john travolta", ["john travolta"]);
    ("uma thurman", ["uma thurman"]);
    ("tim robbins", ["tim robbins"]);
    ("marlon brando", ["marlon brando"]);
    ("james caan", ["james caan"]);
    ("edward norton", ["edward norton"]);
    ("helena bonham carter", ["helena bonham carter"]);
    ("laurence fishburne", ["laurence fishburne"]);
    ("carrie-anne moss", ["carrie-anne moss"]);
    ("ray liotta", ["ray liotta"]);
    ("joe pesci", ["joe pesci"]);
    ("scott glenn", ["scott glenn"]);
    ("viggo mortensen", ["viggo mortensen"]);
    ("ian mckellen", ["ian mckellen"]);
    ("elijah wood", ["elijah wood"]);
    ("orlando bloom", ["orlando bloom"]);
    ("marion cotillard", ["marion cotillard"]);
    ("tom hardy", ["tom hardy"]);
    ("jack nicholson", ["jack nicholson"]);
    ("louise fletcher", ["louise fletcher"]);
    ("ben affleck", ["ben affleck"]);
    ("kevin spacey", ["kevin spacey"]);
    ("gabriel byrne", ["gabriel byrne"]);
    ("chazz palminteri", ["chazz palminteri"]) ].

(** A pattern keeps the text it is written with next to its syntax tree:
    [_extract_runtime] looks for ["hour"] and ["hr"] in that text. *)
Record pattern : Type := { source : string; compiled : regex }.

Fixpoint seq (rs : list regex) : regex :=
  match rs with
  | [] => Eps
  | [r] => r
  | r :: rs' => Seq r (seq rs')
  end.

(** [(\d+(?:\.\d+)?)] *)
Definition number : regex :=
  Group (Seq (Plus Digit) (Opt (Seq (Atom (Chr ".")) (Plus Digit)))).

(** [\s*] *)
Definition ws : regex := Star Space.

(** [word] followed by [s?] *)
Definition plural (word : string) : regex := Seq (lit word) (Opt (Atom (Chr "s"))).

(** The stem [short] or [long], an optional [er], blanks, and an
    optional [than] with the blanks after it. *)
Definition comparative (stem : string) : regex :=
  seq [lit stem; Opt (lit "er"); ws; Opt (Seq (lit "than") ws)].

Definition runtime_patterns : list pattern :=
  [ {| source := "(\d+(?:\.\d+)?)\s*minutes?";
       compiled := seq [number; ws; plural "minute"] |};
    {| source := "(\d+(?:\.\d+)?)\s*mins?";
       compiled := seq [number; ws; plural "min"] |};
    {| source := "(\d+(?:\.\d+)?)\s*hours?";
       compiled := seq [number; ws; plural "hour"] |};
    {| source := "(\d+(?:\.\d+)?)\s*hrs?";
       compiled := seq [number; ws; plural "hr"] |};
    {| source := "short(?:er)?\s*(?:than\s*)?(\d+(?:\.\d+)?)\s*minutes?";
       compiled := seq [comparative "short"; number; ws; plural "minute"] |};
    {| source := "long(?:er)?\s*(?:than\s*)?(\d+(?:\.\d+)?)\s*minutes?";
       compiled := seq [comparative "long"; number; ws; plural "minute"] |};
    {| source := "under\s*(\d+(?:\.\d+)?)\s*minutes?";
       compiled := seq [lit "under"; ws; number; ws; plural "minute"] |};
    {| source := "over\s*(\d+(?:\.\d+)?)\s*hours?";
       compiled := seq [lit "over"; ws; number; ws; plural "hour"] |};
    {| source := "less\s*than\s*(\d+(?:\.\d+)?)\s*minutes?";
       compiled := seq [lit "less"; ws; lit "than"; ws; number; ws; plural "minute"] |};
    {| source := "more\s*than\s*(\d+(?:\.\d+)?)\s*hours?";
       compiled := seq [lit "more"; ws; lit "than"; ws; number; ws; plural "hour"] |};
    {| source := "short(?:er)?\s*(?:than\s*)?(\d+(?:\.\d+)?)";
       compiled := seq [comparative "short"; number] |};
    {| source := "under\s*(\d+(?:\.\d+)?)";
       compiled := seq [lit "under"; ws; number] |} ].

Definition vibe_keywords : list (string * list string) :=
  [ ("funny", ["funny"; "hilarious"; "comedy"; "laugh"; "humor"]);
    ("serious", ["serious"; "dramatic"; "intense"; "heavy"; "emotional"]);
    ("romantic", ["romantic"; "love"; "romance"; "sweet"; "cute"]);
    ("exciting", ["exciting"; "thrilling"; "action-packed"; "adrenaline"]);
    ("scary", ["scary"; "frightening"; "terrifying"; "horror"]);
    ("thought-provoking", ["thought-provoking"; "deep"; "philosophical"; "meaningful"]);
    ("light", ["light"; "easy"; "fun"; "entertaining"; "feel-good"]);
    ("dark", ["dark"; "gritty"; "disturbing"; "intense"]) ].

(** The loop shared by [_extract_genres] and [_extract_actors]: every key
    one of whose terms occurs in the query, title-cased, in table order. *)
Definition triggered (table : list (string * list string)) (query : string)
    : list string :=
  flat_map (fun '(name, terms) =>
              if existsb (fun term => Str.contains term query) terms
              then [Str.title name] else [])
           table.

Definition _extract_genres (query : string) : list string :=
  triggered genre_mapping query.

Definition _extract_actors (query : string) : list string :=
  triggered actor_mapping query.

(** The body run for the first match of one pattern: the number, in
    minutes, stored in the bound the whole query asks for. *)
Definition runtime_update (query : string) (p : pattern) (match_ : string)
    (bounds : option Z * option Z) : option Z * option Z :=
  let minutes := Num.float_of_string match_ in
  let minutes :=
    if Str.contains "hour" (source p) || Str.contains "hr" (source p)
    then (minutes * 60)%Q else minutes in
  let minutes := Num.int_of_float minutes in
  if Str.contains_any ["short"; "under"; "less than"] query
  then (fst bounds, Some minutes)
  else if Str.contains_any ["long"; "over"; "more than"] query
  then (Some minutes, snd bounds)
  else (fst bounds, Some minutes).

(** One turn of the outer loop: the inner loop stops at its [break], so
    it runs its body on the first match only, and the outer loop goes on
    with the next pattern. *)
Definition runtime_step (query : string) (bounds : option Z * option Z)
    (p : pattern) : option Z * option Z :=
  match findall (compiled p) query with
  | [] => bounds
  | match_ :: _ => runtime_update query p match_ bounds
  end.

(** Returns [(runtime_min, runtime_max)]. *)
Definition _extract_runtime (query : string) : option Z * option Z :=
  fold_left (runtime_step query) runtime_patterns (None, None).

Fixpoint first_vibe (table : list (string * list string)) (query : string)
    : option string :=
  match table with
  | [] => None
  | (vibe_, terms) :: rest =>
      if existsb (fun term => Str.contains term query) terms then Some vibe_
      else first_vibe rest query
  end.

Definition _extract_vibe (query : string) : option string :=
  first_vibe vibe_keywords query.

Definition stop_words : gset string :=
  list_to_set
    [ "the"; "a"; "an"; "and"; "or"; "but"; "in"; "on"; "at"; "to"; "for";
      "of"; "with"; "by"; "is"; "are"; "was"; "were"; "be"; "been"; "being";
      "have"; "has"; "had"; "do"; "does"; "did"; "will"; "would"; "could";
      "should"; "may"; "might"; "must"; "can"; "find"; "show"; "me";
      "movies"; "movie"; "film"; "films" ].

(** [\b\w+\b] *)
Definition word_pattern : regex := seq [Boundary; Plus Word; Boundary].

Definition _extract_keywords (query : string) : list string :=
  let words := findall word_pattern (Str.lower query) in
  List.filter (fun word => bool_decide (word ∉ stop_words) &&
                           Nat.ltb 2 (String.length word))
              words.

(** [(\d{4})] *)
Definition year4 : regex := Group (seq [Atom Digit; Atom Digit; Atom Digit; Atom Digit]).

Definition year_patterns : list pattern :=
  [ {| source := "(\d{4})"; compiled := year4 |};
    {| source := "from\s*(\d{4})"; compiled := seq [lit "from"; ws; year4] |};
    {| source := "after\s*(\d{4})"; compiled := seq [lit "after"; ws; year4] |};
    {| source := "since\s*(\d{4})"; compiled := seq [lit "since"; ws; year4] |};
    {| source := "before\s*(\d{4})"; compiled := seq [lit "before"; ws; year4] |};
    {| source := "until\s*(\d{4})"; compiled := seq [lit "until"; ws; year4] |};
    {| source := "(\d{4})s"; compiled := seq [year4; Atom (Chr "s")] |};
    {| source := "(\d{4})s?"; compiled := seq [year4; Opt (Atom (Chr "s"))] |} ].

(** The body of the inner loop of [_extract_year], for one match. *)
Definition year_update (query : string) (bounds : option Z * option Z)
    (match_ : string) : option Z * option Z :=
  let year := Num.int_of_string match_ in
  if Str.contains "s" match_ || Str.contains "1990s" query
  then (Some year, Some (year + 9)%Z)
  else if Str.contains_any ["from"; "after"; "since"] query
  then (Some year, snd bounds)
  else if Str.contains_any ["before"; "until"] query
  then (fst bounds, Some year)
  else (Some year, Some year).

(** Returns [(year_min, year_max)]. *)
Definition _extract_year (query : string) : option Z * option Z :=
  fold_left (fun bounds p =>
               fold_left (year_update query) (findall (compiled p) query) bounds)
            year_patterns (None, None).

Definition parse_query (query : string) (query_type : QueryType) : ParsedFilters :=
  let query_lower := Str.strip (Str.lower query) in
  let '(runtime_min_, runtime_max_) := _extract_runtime query_lower in
  let '(year_min_, year_max_) := _extract_year query_lower in
  {| genres := _extract_genres query_lower;
     actors := _extract_actors query_lower;
     runtime_min := runtime_min_;
     runtime_max := runtime_max_;
     vibe := _extract_vibe query_lower;
     keywords := _extract_keywords query_lower;
     year_min := year_min_;
     year_max := year_max_ |}.

End QueryParser.

(** ** [app/mapping.py]: [MetadataMapper] *)

Module MetadataMapper.

Definition normalized_genres : list (string * list string) :=
  [ ("Comedy", ["comedy"; "funny"; "humor"; "humorous"]);
    ("Drama", ["drama"; "serious"; "emotional"; "touching"]);
    ("Thriller", ["thriller"; "suspense"; "mystery"]);
    ("Action", ["action"; "adventure"; "exciting"]);
    ("Romance", ["romance"; "romantic"; "love"]);
    ("Horror", ["horror"; "scary"; "frightening"]);
    ("Sci-Fi", ["sci-fi"; "science fiction"; "futuristic"]);
    ("Fantasy", ["fantasy"; "magical"; "wizard"]);
    ("Crime", ["crime"; "criminal"; "gangster"]);
    ("Biography", ["biography"; "biographical"]);
    ("History", ["historical"; "history"]);
    ("Family", ["family"; "kids"; "children"]) ].

(** The inner loop of [_normalize_genres]: the first standard genre whose
    variations hold the name, or whose own name it is. *)
Fixpoint standard_of (genre_lower : string) (table : list (string * list string))
    : option string :=
  match table with
  | [] => None
  | (standard_genre, variations) :: rest =>
      if Str.mem genre_lower variations ||
         String.eqb genre_lower (Str.lower standard_genre)
      then Some standard_genre
      else standard_of genre_lower rest
  end.

(** The list [normalized] at the end of the outer loop. *)
Definition normalized_list (genres_ : list string) : list string :=
  flat_map (fun g => match standard_of (Str.lower g) normalized_genres with
                     | Some standard_genre => [standard_genre]
                     | None => []
                     end)
           genres_.

(** [list(set(normalized))]: the elements of the set, each once, in an
    order the language leaves open. *)
Definition _normalize_genres (genres_ : list string) : list string :=
  elements (list_to_set (normalized_list genres_) : gset string).

(** The dictionary [normalize_filters] returns, one field per key. *)
Record Normalized : Type := {
  norm_genres : list string;
  norm_actors : list string;
  norm_runtime_min : option Z;
  norm_runtime_max : option Z;
  norm_vibe : option string;
  norm_keywords : list string;
  norm_year_min : option Z;
  norm_year_max : option Z
}.

Definition normalize_filters (filters : ParsedFilters) : Normalized :=
  {| norm_genres := _normalize_genres (genres filters);
     norm_actors := map Str.lower (actors filters);
     norm_runtime_min := runtime_min filters;
     norm_runtime_max := runtime_max filters;
     norm_vibe := vibe filters;
     norm_keywords := map Str.lower (keywords filters);
     norm_year_min := year_min filters;
     norm_year_max := year_max filters |}.

End MetadataMapper.

(** ** Python list primitives used by the ranking *)

Module Py.

(** [l[:limit]]: a negative [limit] counts from the end. *)
Definition slice_to {A : Type} (limit : Z) (l : list A) : list A :=
  if (0 <=? limit)%Z then firstn (Z.to_nat limit) l
  else firstn (length l - Z.to_nat (- limit)) l.

Section Sort.
Context {A : Type} (key : A -> Q).

(** [x] goes in front of the first element whose key is not larger. *)
Fixpoint insert_desc (x : A) (l : list A) : list A :=
  match l with
  | [] => [x]
  | y :: l' =>
      if Qle_bool (key y) (key x) then x :: y :: l'
      else y :: insert_desc x l'
  end.

(** [l.sort(key=key, reverse=True)]: the stable sort by decreasing key.
    Python's sort is stable also when reversed, so elements with equal
    keys keep the order they come in; a stable sort has one possible
    result, computed here by insertion from the right. *)
Definition sort_desc (l : list A) : list A := fold_right insert_desc [] l.
End Sort.

(** [not l] is false exactly for a list with an element. *)
Definition truthy {A : Type} (l : list A) : bool :=
  match l with [] => false | _ :: _ => true end.

End Py.

(** ** [app/recs.py]: [RecommendationEngine] *)

Module RecommendationEngine.
Local Open Scope Q_scope.

(** The engine holds the catalogue of its data loader and the TF-IDF index
    built by scikit-learn at construction. The library is outside the
    repository: [cosine query_doc i] stands for
    [cosine_similarity(tfidf_vectorizer.transform([query_doc]), tfidf_matrix[i])[0][0]]. *)
Record engine : Type := {
  all_movies : list Movie;
  cosine : string -> nat -> Q
}.

(** [name.lower() in [x.lower() for x in tags]] *)
Definition tag_in (name : string) (tags : list string) : bool :=
  Str.mem (Str.lower name) (map Str.lower tags).

Definition _filter_movies (e : engine) (filters : ParsedFilters) : list Movie :=
  let filtered := all_movies e in
  let filtered :=
    if Py.truthy (genres filters)
    then List.filter (fun m => existsb (fun g => tag_in g (genre m)) (genres filters)) filtered
    else filtered in
  let filtered :=
    if Py.truthy (actors filters)
    then List.filter (fun m => existsb (fun a => tag_in a (cast m)) (actors filters)) filtered
    else filtered in
  let filtered :=
    match runtime_min filters with
    | Some lo => List.filter (fun m => (lo <=? runtime m)%Z) filtered
    | None => filtered
    end in
  let filtered :=
    match runtime_max filters with
    | Some hi => List.filter (fun m => (runtime m <=? hi)%Z) filtered
    | None => filtered
    end in
  let filtered :=
    match year_min filters with
    | Some lo => List.filter (fun m => (lo <=? release_year m)%Z) filtered
    | None => filtered
    end in
  let filtered :=
    match year_max filters with
    | Some hi => List.filter (fun m => (release_year m <=? hi)%Z) filtered
    | None => filtered
    end in
  if Py.truthy (keywords filters)
  then
    let keywords_ := map Str.lower (keywords filters) in
    List.filter (fun m => existsb (fun keyword => Str.contains keyword (Str.lower (overview m)))
                                  keywords_)
                filtered
  else filtered.

Definition vibe_keywords : list (string * list string) :=
  [ ("funny", ["comedy"; "funny"; "hilarious"; "humor"; "laugh"]);
    ("serious", ["drama"; "serious"; "emotional"; "intense"; "heavy"]);
    ("romantic", ["romance"; "romantic"; "love"; "romantic comedy"]);
    ("exciting", ["action"; "thriller"; "adventure"; "exciting"; "thrilling"]);
    ("scary", ["horror"; "scary"; "frightening"; "terrifying"]);
    ("thought-provoking", ["drama"; "biography"; "history"; "philosophical"]);
    ("light", ["comedy"; "family"; "romance"; "fun"; "entertaining"]);
    ("dark", ["crime"; "thriller"; "drama"; "gritty"; "intense"]) ].

Fixpoint lookup (key : string) (table : list (string * list string))
    : option (list string) :=
  match table with
  | [] => None
  | (k, v) :: rest => if String.eqb key k then Some v else lookup key rest
  end.

(** [min(boost, 1.0)] *)
Definition cap_at_one (boost : Q) : Q := if Qle_bool boost 1 then boost else 1.

Definition _calculate_vibe_boost (movie : Movie) (vibe_ : string) : Q :=
  match lookup vibe_ vibe_keywords with
  | None => 0
  | Some keywords_ =>
      let boost :=
        fold_left (fun boost g =>
                     if existsb (fun keyword => Str.contains keyword (Str.lower g)) keywords_
                     then boost + 0.5 else boost)
                  (genre movie) 0 in
      let overview_lower := Str.lower (overview movie) in
      let boost :=
        fold_left (fun boost keyword =>
                     if Str.contains keyword overview_lower then boost + 0.1 else boost)
                  keywords_ boost in
      cap_at_one boost
  end.

(** [sum(1 for name in names if name.lower() in [t.lower() for t in tags])] *)
Definition hits (names tags : list string) : Q :=
  inject_Z (Z.of_nat (length (List.filter (fun name => tag_in name tags) names))).

(** [if filters.vibe:] holds for a string with a character. *)
Definition vibe_term (movie : Movie) (filters : ParsedFilters) : Q :=
  match vibe filters with
  | Some (String c v) => _calculate_vibe_boost movie (String c v)
  | _ => 0
  end.

(** [max(0, x)] *)
Definition at_least_zero (x : Q) : Q := if Qle_bool x 0 then 0 else x.

(** An [Optional[int]] is true when it is set and not zero. *)
Definition set_and_nonzero (o : option Z) : option Z :=
  match o with
  | Some 0%Z => None
  | other => other
  end.

(** The score the loop of [_popularity_strategy] gives to one movie. *)
Definition popularity_score (filters : ParsedFilters) (movie : Movie) : Q :=
  let score := popularity movie in
  let score :=
    if Py.truthy (genres filters)
    then score + hits (genres filters) (genre movie) * 0.5 else score in
  let score :=
    if Py.truthy (actors filters)
    then score + hits (actors filters) (cast movie) * 0.3 else score in
  let score := score + vibe_term movie filters in
  match set_and_nonzero (runtime_min filters), set_and_nonzero (runtime_max filters) with
  | Some lo, Some hi =>
      let target_runtime := inject_Z (lo + hi) / 2 in
      let runtime_diff := Qabs (inject_Z (runtime movie) - target_runtime) in
      let runtime_boost := at_least_zero (1 - runtime_diff / 60) in
      score + runtime_boost * 0.2
  | _, _ => score
  end.

Definition _popularity_strategy (movies : list Movie) (filters : ParsedFilters)
    (limit : Z) : list Movie :=
  let scored_movies := map (fun movie => (movie, popularity_score filters movie)) movies in
  let scored_movies := Py.sort_desc snd scored_movies in
  map fst (Py.slice_to limit scored_movies).

(** The index of the first movie of the catalogue with this [id]. *)
Fixpoint movie_index_from (i : nat) (movie_id : Z) (catalogue : list Movie)
    : option nat :=
  match catalogue with
  | [] => None
  | m :: rest =>
      if (id m =? movie_id)%Z then Some i else movie_index_from (S i) movie_id rest
  end.

Definition query_doc (filters : ParsedFilters) : string :=
  Str.join " " (keywords filters ++ genres filters ++ actors filters).

(** The score the loop of [_similarity_strategy] gives to one movie. *)
Definition similarity_score (e : engine) (filters : ParsedFilters) (movie : Movie) : Q :=
  match movie_index_from 0%nat (id movie) (all_movies e) with
  | Some movie_index =>
      let similarity := cosine e (query_doc filters) movie_index in
      let boost := 0 in
      let boost :=
        if Py.truthy (genres filters)
        then boost + hits (genres filters) (genre movie) * 0.3 else boost in
      let boost :=
        if Py.truthy (actors filters)
        then boost + hits (actors filters) (cast movie) * 0.2 else boost in
      let boost := boost + vibe_term movie filters in
      similarity + boost
  | None => 0
  end.

(** The vectoriser is set by the constructor, so the guard of the first
    line is [not movies]. *)
Definition _similarity_strategy (e : engine) (movies : list Movie)
    (filters : ParsedFilters) (limit : Z) : list Movie :=
  if negb (Py.truthy movies) then Py.slice_to limit movies
  else
    let similarities := map (fun movie => (movie, similarity_score e filters movie)) movies in
    let similarities := Py.sort_desc snd similarities in
    map fst (Py.slice_to limit similarities).

Definition get_recommendations (e : engine) (filters : ParsedFilters)
    (variant : RecommendationStrategy) (limit : Z) : list Movie :=
  let filtered_movies := _filter_movies e filters in
  match variant with
  | POPULARITY =>
      if negb (Py.truthy filtered_movies) then []
      else _popularity_strategy filtered_movies filters limit
  | SIMILARITY =>
      let movies_to_use :=
        if Py.truthy filtered_movies then filtered_movies else all_movies e in
      _similarity_strategy e movies_to_use filters limit
  end.

(** *** Strategy assignment

    [hash] of a [str] is computed by the interpreter from the text and
    from a secret drawn when the process starts. The interpreter state
    also has the things an assignment could depend on but must not: the
    clock, the state of the [random] module (imported by [recs.py]) and
    the number of calls served so far. *)
Record Interpreter : Type := {
  hash_secret : Z;
  clock : Z;
  random_state : Z;
  calls_served : Z
}.

Section Assign.
(** The keyed string hash of the interpreter. *)
Variable str_hash : Z -> string -> Z.

(** [hash(s)] in a given interpreter state. *)
Definition hash (st : Interpreter) (s : string) : Z := str_hash (hash_secret st) s.

(** Returns the variant and the interpreter state after the call. *)
Definition assign_variant (session_id : string) (st : Interpreter)
    : RecommendationStrategy * Interpreter :=
  let hash_value := (hash st session_id mod 2)%Z in
  (if (hash_value =? 0)%Z then POPULARITY else SIMILARITY, st).
End Assign.

End RecommendationEngine.


(** ** [app/recs.py]: [RecommendationMetrics] *)

Module RecommendationMetrics.
Local Open Scope Q_scope.

(** [calculate_ctr(impressions, clicks)], in percent. *)
Definition calculate_ctr (impressions clicks : Z) : Q :=
  if (impressions =? 0)%Z then 0
  else (inject_Z clicks / inject_Z impressions) * 100.

(** What a dictionary of an event log can hold under a key. *)
Inductive value : Type :=
| Text (s : string)
| Number (n : Z)
| Nothing.

Global Instance value_eq_dec : EqDecision value.
Proof. solve_decision. Defined.

(** [e.get(key) == text] *)
Definition get_is (e : gmap string value) (key text : string) : bool :=
  bool_decide (e !! key = Some (Text text)).

(** [sum(1 for e in events if e.get('variant') == v and e.get('event_type') == t)] *)
Definition count_events (variant_ event_type : string)
    (events : list (gmap string value)) : nat :=
  length (List.filter (fun e => get_is e "variant" variant_ &&
                               get_is e "event_type" event_type)
                      events).

(** The dictionary of one variant. *)
Record variant_stats : Type := {
  impressions : nat;
  clicks : nat;
  ctr : Q
}.

(** The dictionary [calculate_variant_performance] returns. *)
Record performance : Type := {
  variant_a : variant_stats;
  variant_b : variant_stats
}.

Definition calculate_variant_performance (events : list (gmap string value))
    : performance :=
  let variant_a_impressions := count_events "A" "impression" events in
  let variant_a_clicks := count_events "A" "click" events in
  let variant_b_impressions := count_events "B" "impression" events in
  let variant_b_clicks := count_events "B" "click" events in
  {| variant_a :=
       {| impressions := variant_a_impressions;
          clicks := variant_a_clicks;
          ctr := calculate_ctr (Z.of_nat variant_a_impressions)
                               (Z.of_nat variant_a_clicks) |};
     variant_b :=
       {| impressions := variant_b_impressions;
          clicks := variant_b_clicks;
          ctr := calculate_ctr (Z.of_nat variant_b_impressions)
                               (Z.of_nat variant_b_clicks) |} |}.

End RecommendationMetrics.

(** ** [app/data_loader.py]: [DataLoader]

    The loader is its catalogue: [get_all_movies] returns the list. *)

Module DataLoader.

Fixpoint get_movie_by_id (catalog : list Movie) (movie_id : Z) : option Movie :=
  match catalog with
  | [] => None
  | movie :: rest =>
      if (id movie =? movie_id)%Z then Some movie
      else get_movie_by_id rest movie_id
  end.

(** [search_movies(filters)] for the dictionary that [normalize_filters]
    builds. Every test is [if filters.get(key):], which holds for a list
    with an element and for a number that is set and not zero. *)
Definition search_movies (catalog : list Movie)
    (filters : MetadataMapper.Normalized) : list Movie :=
  let results := catalog in
  let results :=
    if Py.truthy (MetadataMapper.norm_genres filters)
    then List.filter (fun m => existsb (fun g => RecommendationEngine.tag_in g (genre m))
                                       (MetadataMapper.norm_genres filters))
                     results
    else results in
  let results :=
    if Py.truthy (MetadataMapper.norm_actors filters)
    then List.filter (fun m => existsb (fun a => RecommendationEngine.tag_in a (cast m))
                                       (MetadataMapper.norm_actors filters))
                     results
    else results in
  let results :=
    match RecommendationEngine.set_and_nonzero (MetadataMapper.norm_runtime_min filters) with
    | Some lo => List.filter (fun m => (lo <=? runtime m)%Z) results
    | None => results
    end in
  let results :=
    match RecommendationEngine.set_and_nonzero (MetadataMapper.norm_runtime_max filters) with
    | Some hi => List.filter (fun m => (runtime m <=? hi)%Z) results
    | None => results
    end in
  let results :=
    match RecommendationEngine.set_and_nonzero (MetadataMapper.norm_year_min filters) with
    | Some lo => List.filter (fun m => (lo <=? release_year m)%Z) results
    | None => results
    end in
  let results :=
    match RecommendationEngine.set_and_nonzero (MetadataMapper.norm_year_max filters) with
    | Some hi => List.filter (fun m => (release_year m <=? hi)%Z) results
    | None => results
    end in
  if Py.truthy (MetadataMapper.norm_keywords filters)
  then
    let keywords_ := map Str.lower (MetadataMapper.norm_keywords filters) in
    List.filter (fun m => existsb (fun keyword => Str.contains keyword (Str.lower (overview m)))
                                  keywords_)
                results
  else results.

End DataLoader.

(** ** [app/voice.py]: [VoiceProcessor.get_voice_suggestions] *)

Module VoiceProcessor.

Definition starters : list string :=
  [ "find comedy movies";
    "show me action films";
    "recommend romantic movies";
    "look for horror films";
    "search for sci-fi movies";
    "give me drama movies";
    "suggest thriller movies";
    "what comedy movies are there";
    "can you find action movies";
    "help me find romantic movies";
    "i am looking for horror movies";
    "i need comedy movies";
    "do you have action movies";
    "are there any romantic movies" ].

Definition get_voice_suggestions (partial_query : string) : list string :=
  let suggestions :=
    match partial_query with
    | String _ _ =>
        let partial_lower := Str.lower partial_query in
        List.filter (fun s => Str.contains partial_lower (Str.lower s)) starters
    | EmptyString => Py.slice_to 5 starters
    end in
  Py.slice_to 10 suggestions.

End VoiceProcessor.

(** * Reference definitions

    Declarative counterparts of the code above, worded after the
    specification, against which the code is compared below. *)

Module Reference.
Import QueryParser.

(** The minutes one match of a runtime pattern stands for. *)
Definition minutes_of (p : pattern) (match_ : string) : Z :=
  let minutes := Num.float_of_string match_ in
  Num.int_of_float
    (if Str.contains "hour" (source p) || Str.contains "hr" (source p)
     then (minutes * 60)%Q else minutes).

(** First-match-wins: the first pattern of the list that matches gives the
    value, and the patterns after it are not looked at. *)
Fixpoint first_match_value (query : string) (ps : list pattern) : option Z :=
  match ps with
  | [] => None
  | p :: rest =>
      match Re.findall (compiled p) query with
      | match_ :: _ => Some (minutes_of p match_)
      | [] => first_match_value query rest
      end
  end.

(** The value the loop of [_extract_runtime] ends with: each pattern that
    matches replaces the value of the patterns before it. *)
Definition last_match_value (query : string) (ps : list pattern) : option Z :=
  fold_left (fun value p =>
               match Re.findall (compiled p) query with
               | match_ :: _ => Some (minutes_of p match_)
               | [] => value
               end)
            ps None.

(** The bound a value goes to, by the words of the query. *)
Definition directed (query : string) (value : option Z) : option Z * option Z :=
  match value with
  | None => (None, None)
  | Some minutes =>
      if Str.contains_any ["short"; "under"; "less than"] query then (None, Some minutes)
      else if Str.contains_any ["long"; "over"; "more than"] query then (Some minutes, None)
      else (None, Some minutes)
  end.

(** The genre names the interpreter can emit: its keys, title-cased. *)
Definition canonical_genres : list string :=
  map (fun entry => Str.title (fst entry)) genre_mapping.

(** [needle] occurs somewhere in [s]. *)
Definition substring (needle s : string) : Prop :=
  exists before after, s = String.append before (String.append needle after).

(** A list-valued field constrains an item when it is not empty: one of
    its names, lowercased, must then be one of the item's tags,
    lowercased. *)
Definition tag_ok (names tags : list string) : Prop :=
  names = [] \/
  exists name, In name names /\ In (Str.lower name) (map Str.lower tags).

(** The conjunction over the fields that are present. *)
Definition passes (filters : ParsedFilters) (m : Movie) : Prop :=
  tag_ok (genres filters) (genre m) /\
  tag_ok (actors filters) (cast m) /\
  (forall lo, runtime_min filters = Some lo -> (lo <= runtime m)%Z) /\
  (forall hi, runtime_max filters = Some hi -> (runtime m <= hi)%Z) /\
  (forall lo, year_min filters = Some lo -> (lo <= release_year m)%Z) /\
  (forall hi, year_max filters = Some hi -> (release_year m <= hi)%Z) /\
  (keywords filters = [] \/
   exists keyword, In keyword (keywords filters) /\
                   substring (Str.lower keyword) (Str.lower (overview m))).

(** The same conjunction as one test. *)
Definition retained (filters : ParsedFilters) (m : Movie) : bool :=
  (negb (Py.truthy (genres filters)) ||
   existsb (fun g => RecommendationEngine.tag_in g (genre m)) (genres filters)) &&
  (negb (Py.truthy (actors filters)) ||
   existsb (fun a => RecommendationEngine.tag_in a (cast m)) (actors filters)) &&
  match runtime_min filters with Some lo => (lo <=? runtime m)%Z | None => true end &&
  match runtime_max filters with Some hi => (runtime m <=? hi)%Z | None => true end &&
  match year_min filters with Some lo => (lo <=? release_year m)%Z | None => true end &&
  match year_max filters with Some hi => (release_year m <=? hi)%Z | None => true end &&
  (negb (Py.truthy (keywords filters)) ||
   existsb (fun keyword => Str.contains (Str.lower keyword) (Str.lower (overview m)))
           (keywords filters)).

(** The whole ranking a strategy works out before it cuts it to [limit]. *)
Definition ranking (e : RecommendationEngine.engine) (filters : ParsedFilters)
    (strategy : RecommendationStrategy) : list Movie :=
  let filtered_movies := RecommendationEngine._filter_movies e filters in
  match strategy with
  | POPULARITY =>
      Py.sort_desc (RecommendationEngine.popularity_score filters) filtered_movies
  | SIMILARITY =>
      Py.sort_desc (RecommendationEngine.similarity_score e filters)
        (if Py.truthy filtered_movies then filtered_movies
         else RecommendationEngine.all_movies e)
  end.

(** The first three movies of the sample catalogue of [data_loader.py]. *)
Definition sample_movies : list Movie :=
  [ {| id := 1; title := "Forrest Gump"; genre := ["Drama"; "Comedy"; "Romance"];
       cast := ["Tom Hanks"; "Robin Wright"; "Gary Sinise"];
       overview := "The story of a simple man who unwittingly becomes involved in several historical events.";
       runtime := 142; popularity := 8.5; release_year := 1994;
       director := "Robert Zemeckis"; rating := 8.8 |};
    {| id := 2; title := "The Shawshank Redemption"; genre := ["Drama"];
       cast := ["Tim Robbins"; "Morgan Freeman"; "Bob Gunton"];
       overview := "Two imprisoned men bond over a number of years, finding solace and eventual redemption through acts of common decency.";
       runtime := 142; popularity := 9.2; release_year := 1994;
       director := "Frank Darabont"; rating := 9.3 |};
    {| id := 3; title := "The Godfather"; genre := ["Drama"; "Crime"];
       cast := ["Marlon Brando"; "Al Pacino"; "James Caan"];
       overview := "The aging patriarch of an organized crime dynasty transfers control to his reluctant son.";
       runtime := 175; popularity := 9.0; release_year := 1972;
       director := "Francis Ford Coppola"; rating := 9.2 |} ].

(** An engine over the sample, with an index in which nothing is similar
    to anything. *)
Definition sample_engine : RecommendationEngine.engine :=
  {| RecommendationEngine.all_movies := sample_movies;
     RecommendationEngine.cosine := fun _ _ => 0%Q |}.

(** The filters of [test_no_matching_movies]. *)
Definition nothing_matches : ParsedFilters :=
  {| genres := ["NonExistentGenre"]; actors := ["NonExistentActor"];
     runtime_min := None; runtime_max := Some 1%Z; vibe := None; keywords := [];
     year_min := None; year_max := None |}.

(** [a] may stand before [b] in a list sorted by decreasing key. *)
Definition before {A : Type} (key : A -> Q) (a b : A) : Prop := (key b <= key a)%Q.

(** The elements whose key has the value [v], in the order of the list. *)
Definition tied {A : Type} (key : A -> Q) (v : Q) (l : list A) : list A :=
  List.filter (fun a => Qeq_bool (key a) v) l.

(** The second movie of the sample. *)
Definition sample_second : Movie :=
  nth 1 sample_movies
      {| id := 0; title := ""; genre := []; cast := []; overview := ""; runtime := 0;
         popularity := 0; release_year := 0; director := ""; rating := 0 |}.

(** Every character of [s] passes the test [p]. *)
Fixpoint all_chars (p : ascii -> bool) (s : string) : bool :=
  match s with
  | EmptyString => true
  | String c s' => p c && all_chars p s'
  end.

(** Exactly four decimal digits. *)
Definition four_digits (s : string) : bool :=
  Nat.eqb (String.length s) 4 && all_chars Str.is_digit s.

(** The text of the last match of the last year pattern that matches. *)
Definition last_year_match (query : string) : option string :=
  fold_left (fun found p =>
               fold_left (fun _ match_ => Some match_)
                         (Re.findall (compiled p) query) found)
            year_patterns None.

(** The bounds a year goes to, by the words of the query. *)
Definition year_directed (query : string) (found : option string)
    : option Z * option Z :=
  match found with
  | None => (None, None)
  | Some match_ =>
      let year := Num.int_of_string match_ in
      if Str.contains "1990s" query then (Some year, Some (year + 9)%Z)
      else if Str.contains_any ["from"; "after"; "since"] query then (Some year, None)
      else if Str.contains_any ["before"; "until"] query then (None, Some year)
      else (Some year, Some year)
  end.

(** Whenever the pattern matches, the text it captures passes [P]. *)
Definition captures (P : string -> bool) (r : Re.regex) : Prop :=
  forall prev s cap k ans,
    Re.run r prev s cap k = Some ans ->
    exists p' s' t, P t = true /\ k p' s' t = Some ans.

(** ** Matching without [lower]

    Two characters are the same up to case when they are equal, or when
    one is a capital letter [A] to [Z] and the other is the small letter,
    32 places after it. *)
Definition same_char_ci (c d : ascii) : bool :=
  let n := nat_of_ascii c in
  let m := nat_of_ascii d in
  Nat.eqb n m ||
  (Nat.leb 65 n && Nat.leb n 90 && Nat.eqb m (n + 32)) ||
  (Nat.leb 65 m && Nat.leb m 90 && Nat.eqb n (m + 32)).

(** Two texts of the same length whose characters are the same up to
    case, place by place. *)
Fixpoint same_ci (a b : string) : bool :=
  match a, b with
  | EmptyString, EmptyString => true
  | String c a', String d b' => same_char_ci c d && same_ci a' b'
  | _, _ => false
  end.

(** Text of the 7-bit character set, the text on which [str.lower]
    changes the letters [A] to [Z] and nothing else. *)
Definition ascii_text (s : string) : bool :=
  all_chars (fun c => Nat.ltb (nat_of_ascii c) 128) s.

Definition ascii_filters (filters : ParsedFilters) : bool :=
  forallb ascii_text (genres filters) && forallb ascii_text (actors filters) &&
  forallb ascii_text (keywords filters).

Definition ascii_movie (m : Movie) : bool :=
  forallb ascii_text (genre m) && forallb ascii_text (cast m) &&
  ascii_text (overview m).

(** One of the names is, up to case, one of the tags: the whole tag. *)
Definition whole_name_ok (names tags : list string) : Prop :=
  names = [] \/
  exists name tag, In name names /\ In tag tags /\ same_ci name tag = true.

(** One of the keywords is, up to case, a part of the text. *)
Definition part_of_text_ok (words : list string) (text : string) : Prop :=
  words = [] \/
  exists keyword before part after,
    In keyword words /\
    text = String.append before (String.append part after) /\
    same_ci keyword part = true.

(** The conjunction over the present fields, with names matched as whole
    names and keywords as parts of the synopsis, both up to case. *)
Definition passes_up_to_case (filters : ParsedFilters) (m : Movie) : Prop :=
  whole_name_ok (genres filters) (genre m) /\
  whole_name_ok (actors filters) (cast m) /\
  (forall lo, runtime_min filters = Some lo -> (lo <= runtime m)%Z) /\
  (forall hi, runtime_max filters = Some hi -> (runtime m <= hi)%Z) /\
  (forall lo, year_min filters = Some lo -> (lo <= release_year m)%Z) /\
  (forall hi, year_max filters = Some hi -> (release_year m <= hi)%Z) /\
  part_of_text_ok (keywords filters) (overview m).

(** The genre and cast test read as a substring test: one of the names,
    lowercased, is a part of one of the item's tags, lowercased. *)
Definition part_of_tag_ok (names tags : list string) : Prop :=
  names = [] \/
  exists name tag, In name names /\ In tag tags /\
                   substring (Str.lower name) (Str.lower tag).

(** The conjunction with the genre and cast test read as a substring
    test. *)
Definition passes_by_part (filters : ParsedFilters) (m : Movie) : Prop :=
  part_of_tag_ok (genres filters) (genre m) /\
  part_of_tag_ok (actors filters) (cast m) /\
  (forall lo, runtime_min filters = Some lo -> (lo <= runtime m)%Z) /\
  (forall hi, runtime_max filters = Some hi -> (runtime m <= hi)%Z) /\
  (forall lo, year_min filters = Some lo -> (lo <= release_year m)%Z) /\
  (forall hi, year_max filters = Some hi -> (release_year m <= hi)%Z) /\
  (keywords filters = [] \/
   exists keyword, In keyword (keywords filters) /\
                   substring (Str.lower keyword) (Str.lower (overview m))).

(** Filters that ask for a part of a genre name, and for a part of a cast
    name. *)
Definition part_of_a_genre : ParsedFilters :=
  {| genres := ["Dram"]; actors := [];
     runtime_min := None; runtime_max := None; vibe := None; keywords := [];
     year_min := None; year_max := None |}.

Definition part_of_a_name : ParsedFilters :=
  {| genres := []; actors := ["Hanks"];
     runtime_min := None; runtime_max := None; vibe := None; keywords := [];
     year_min := None; year_max := None |}.

(** Filters that ask for a genre in capital letters. *)
Definition genre_in_capitals : ParsedFilters :=
  {| genres := ["DRAMA"]; actors := [];
     runtime_min := None; runtime_max := None; vibe := None; keywords := [];
     year_min := None; year_max := None |}.

(** The first movie of the sample. *)
Definition sample_first : Movie :=
  nth 0 sample_movies
      {| id := 0; title := ""; genre := []; cast := []; overview := ""; runtime := 0;
         popularity := 0; release_year := 0; director := ""; rating := 0 |}.

(** ** The popularity score, worded after the specification *)

Section Score.
Local Open Scope Q_scope.

(** How many of the requested names the item has. *)
Definition satisfied (names tags : list string) : Q :=
  inject_Z (Z.of_nat (length (List.filter
                                (fun name => RecommendationEngine.tag_in name tags)
                                names))).

(** The mood boost: 0.5 for each genre tag of the item that contains a
    trigger of the mood, 0.1 for each trigger that occurs in the synopsis,
    at most 1 in all; 0 for an unknown mood and without a mood. *)
Definition mood_boost (m : Movie) (mood : option string) : Q :=
  match mood with
  | None => 0
  | Some tag =>
      match RecommendationEngine.lookup tag RecommendationEngine.vibe_keywords with
      | None => 0
      | Some triggers =>
          let tags_ :=
            List.filter (fun g => existsb (fun trigger => Str.contains trigger (Str.lower g))
                                          triggers)
                        (genre m) in
          let words :=
            List.filter (fun trigger => Str.contains trigger (Str.lower (overview m)))
                        triggers in
          Qmin 1 (0.5 * inject_Z (Z.of_nat (length tags_)) +
                  0.1 * inject_Z (Z.of_nat (length words)))
      end
  end.

(** The duration-closeness boost, added when both bounds are set. *)
Definition closeness_boost (m : Movie) (lo hi : option Z) : Q :=
  match lo, hi with
  | Some lo, Some hi =>
      let midpoint := (inject_Z lo + inject_Z hi) / 2 in
      Qmax 0 (1 - Qabs (inject_Z (runtime m) - midpoint) / 60) * 0.2
  | _, _ => 0
  end.

(** Popularity plus boosts. *)
Definition boosted_popularity (filters : ParsedFilters) (m : Movie) : Q :=
  popularity m
  + 0.5 * satisfied (genres filters) (genre m)
  + 0.3 * satisfied (actors filters) (cast m)
  + mood_boost m (vibe filters)
  + closeness_boost m (runtime_min filters) (runtime_max filters).

(** A catalogue of two long and short movies, and filters with a lower
    bound of zero minutes. *)
Definition two_movies : list Movie :=
  [ {| id := 1; title := "Long"; genre := ["Drama"]; cast := []; overview := "";
       runtime := 200; popularity := 9.0; release_year := 2000;
       director := ""; rating := 9.0 |};
    {| id := 2; title := "Short"; genre := ["Drama"]; cast := []; overview := "";
       runtime := 100; popularity := 8.9; release_year := 2000;
       director := ""; rating := 8.9 |} ].

Definition two_engine : RecommendationEngine.engine :=
  {| RecommendationEngine.all_movies := two_movies;
     RecommendationEngine.cosine := fun _ _ => 0%Q |}.

Definition from_zero_minutes : ParsedFilters :=
  {| genres := []; actors := [];
     runtime_min := Some 0%Z; runtime_max := Some 200%Z; vibe := None; keywords := [];
     year_min := None; year_max := None |}.

(** Filters with both duration bounds and nothing else: the movies of
    two to three hours. *)
Definition nothing_but_bounds : ParsedFilters :=
  {| genres := []; actors := [];
     runtime_min := Some 120%Z; runtime_max := Some 180%Z; vibe := None; keywords := [];
     year_min := None; year_max := None |}.

(** A bound that is set to zero. *)
Definition is_zero_bound (o : option Z) : bool :=
  match o with
  | Some 0%Z => true
  | _ => false
  end.

(** Filters in which no duration bound is zero. *)
Definition no_zero_bound (filters : ParsedFilters) : bool :=
  negb (is_zero_bound (runtime_min filters)) &&
  negb (is_zero_bound (runtime_max filters)).

End Score.

(** ** Queries without a word

    A character of the 7-bit set that is no letter, no digit and no
    underscore: a blank, a control character or a punctuation mark. *)
Definition no_word_char (c : ascii) : bool :=
  Nat.ltb (nat_of_ascii c) 128 && negb (Str.is_word c).

Definition without_words (s : string) : bool := all_chars no_word_char s.

(** An atom that matches word characters only. *)
Definition atom_of_word (a : Re.atom) : bool :=
  match a with
  | Re.Chr c => Str.is_word c
  | Re.Digit => true
  | Re.Word => true
  | Re.Space => false
  end.

(** A pattern every match of which holds a word character. *)
Fixpoint needs_word (r : Re.regex) : bool :=
  match r with
  | Re.Atom a => atom_of_word a
  | Re.Plus a => atom_of_word a
  | Re.Seq r1 r2 => needs_word r1 || needs_word r2
  | Re.Group r' => needs_word r'
  | _ => false
  end.

(** Every term of the table holds a word character. *)
Definition terms_have_words (table : list (string * list string)) : bool :=
  forallb (fun entry => forallb (fun term => negb (all_chars (fun c => negb (Str.is_word c)) term))
                                (snd entry))
          table.

(** What a call of the engine can end with. *)
Inductive outcome (A : Type) : Type :=
| Returns (value : A)
| RaisesInvalidArgument.
Arguments Returns {A} value.
Arguments RaisesInvalidArgument {A}.

(** [recommend] of the specification is [get_recommendations]: its body
    has no [raise] and no test of [limit], and slicing, comparing and
    sorting raise nothing, so every call returns. *)
Definition recommend (e : RecommendationEngine.engine) (filters : ParsedFilters)
    (strategy : RecommendationStrategy) (limit : Z) : outcome (list Movie) :=
  Returns (RecommendationEngine.get_recommendations e filters strategy limit).

End Reference.

(** * Properties of the query interpreter *)

Section Interpreter.
Import QueryParser.

(** C5. A decade such as ["1990s"] should give the bounds 1990 and 1999.
    The code does so for the 1990s, which it looks for by name, and for no
    other decade: the text of a match is four digits and never holds the
    letter [s], so for the 1980s the word [from] decides and only the
    lower bound is set. *)
Theorem extract_year_decade :
  (let filters := parse_query "find movies from the 1990s" TEXT in
   year_min filters = Some 1990%Z /\ year_max filters = Some 1999%Z) /\
  (let filters := parse_query "find movies from the 1980s" TEXT in
   year_min filters = Some 1980%Z /\ year_max filters = None) /\
  _extract_year "movies of the 1980s" = (Some 1980%Z, Some 1980%Z).
Proof. vm_compute. repeat split; reflexivity. Qed.

(** C4. Duration extraction should use the first pattern that matches. In
    the code the [break] leaves the loop over the matches of one pattern
    only, so every later pattern that matches replaces the value: for
    ["find movies under 2 hours"] the third pattern reads 2 hours, that is
    120 minutes, and the twelfth then reads a bare 2. *)
Theorem extract_runtime_later_pattern_overrides :
  let query := "find movies under 2 hours" in
  _extract_runtime query = (None, Some 2%Z) /\
  Reference.first_match_value query runtime_patterns = Some 120%Z /\
  Reference.directed query (Reference.first_match_value query runtime_patterns)
    = (None, Some 120%Z).
Proof. vm_compute. repeat split; reflexivity. Qed.

(** One turn of the loop of [_extract_runtime] keeps the bounds in the
    shape [directed] gives them. *)
Lemma runtime_step_directed (query : string) (value : option Z) (p : pattern) :
  runtime_step query (Reference.directed query value) p =
  Reference.directed query
    (match Re.findall (compiled p) query with
     | match_ :: _ => Some (Reference.minutes_of p match_)
     | [] => value
     end).
Proof.
  unfold runtime_step. destruct (Re.findall (compiled p) query) as [|m ms]; [reflexivity|].
  unfold runtime_update, Reference.directed, Reference.minutes_of.
  destruct (Str.contains_any ["short"; "under"; "less than"] query);
    destruct (Str.contains_any ["long"; "over"; "more than"] query);
    destruct value; reflexivity.
Qed.

Lemma runtime_loop_directed (query : string) (ps : list pattern) (value : option Z) :
  fold_left (runtime_step query) ps (Reference.directed query value) =
  Reference.directed query
    (fold_left (fun value p =>
                  match Re.findall (compiled p) query with
                  | match_ :: _ => Some (Reference.minutes_of p match_)
                  | [] => value
                  end) ps value).
Proof.
  revert value. induction ps as [|p ps IH]; intros value; simpl; [reflexivity|].
  rewrite runtime_step_directed. apply IH.
Qed.

(** C6. Duration extraction sets at most one bound, chosen by the words of
    the query: with short, under or less than the value is the maximum,
    otherwise with long, over or more than it is the minimum, otherwise it
    is the maximum; no query gets both bounds. The two queries of the
    specification give max = 120 and min = 90. *)
Theorem extract_runtime_one_bound (query : string) :
  _extract_runtime query =
    Reference.directed query (Reference.last_match_value query runtime_patterns) /\
  (fst (_extract_runtime query) = None \/ snd (_extract_runtime query) = None) /\
  (let filters := parse_query "find movies shorter than 120 minutes" TEXT in
   runtime_max filters = Some 120%Z /\ runtime_min filters = None) /\
  (let filters := parse_query "find movies longer than 90 minutes" TEXT in
   runtime_min filters = Some 90%Z /\ runtime_max filters = None).
Proof.
  assert (Heq : _extract_runtime query =
                Reference.directed query (Reference.last_match_value query runtime_patterns)).
  { unfold _extract_runtime, Reference.last_match_value.
    apply (runtime_loop_directed query runtime_patterns None). }
  split; [exact Heq|]. split.
  - rewrite Heq. unfold Reference.directed.
    destruct (Reference.last_match_value query runtime_patterns); [|left; reflexivity].
    destruct (Str.contains_any ["short"; "under"; "less than"] query); [left; reflexivity|].
    destruct (Str.contains_any ["long"; "over"; "more than"] query);
      [right | left]; reflexivity.
  - vm_compute. repeat split; reflexivity.
Qed.

End Interpreter.

(** * Properties of the filter normaliser *)

Section Normaliser.
Import QueryParser MetadataMapper.

Lemma triggered_sublist (table : list (string * list string)) (query : string) :
  triggered table query `sublist_of` map (fun entry => Str.title (fst entry)) table.
Proof.
  induction table as [|[name terms] table IH]; simpl; [constructor|].
  destruct (existsb _ terms); simpl; [apply sublist_skip | apply sublist_cons]; exact IH.
Qed.

Lemma canonical_genres_standard :
  Forall (fun name => standard_of (Str.lower name) normalized_genres = Some name)
         Reference.canonical_genres.
Proof.
  apply List.Forall_forall. intros name Hin. vm_compute in Hin.
  repeat (destruct Hin as [<- | Hin]; [vm_compute; reflexivity|]).
  contradiction.
Qed.

Lemma canonical_genres_NoDup : NoDup Reference.canonical_genres.
Proof. apply (bool_decide_unpack _). vm_compute. exact I. Qed.

Lemma normalized_list_fixed (names : list string) :
  Forall (fun name => standard_of (Str.lower name) normalized_genres = Some name) names ->
  normalized_list names = names.
Proof.
  induction 1 as [|name names Hname _ IH]; [reflexivity|].
  unfold normalized_list in *. cbn [flat_map]. rewrite Hname, IH. reflexivity.
Qed.

Lemma parse_query_genres (query : string) (query_type : QueryType) :
  genres (parse_query query query_type) =
  _extract_genres (Str.strip (Str.lower query)).
Proof.
  unfold parse_query.
  destruct (_extract_runtime _), (_extract_year _). reflexivity.
Qed.

(** C10. The two genre tables agree on what the interpreter can emit: the
    twelve title-cased names are Comedy, ..., Family, the normaliser maps
    each of them to itself, and so for every query the normalised genres
    are the genres the interpreter extracted, each once, none dropped and
    none renamed (the order of a set is left open). *)
Theorem normalize_keeps_extracted_genres (query : string) (query_type : QueryType) :
  Reference.canonical_genres =
    ["Comedy"; "Drama"; "Thriller"; "Action"; "Romance"; "Horror"; "Sci-Fi";
     "Fantasy"; "Crime"; "Biography"; "History"; "Family"] /\
  Forall (fun name => standard_of (Str.lower name) normalized_genres = Some name)
         Reference.canonical_genres /\
  (let filters := parse_query query query_type in
   genres filters `sublist_of` Reference.canonical_genres /\
   normalized_list (genres filters) = genres filters /\
   norm_genres (normalize_filters filters) ≡ₚ genres filters /\
   NoDup (norm_genres (normalize_filters filters))).
Proof.
  split; [reflexivity|]. split; [exact canonical_genres_standard|].
  cbv zeta. rewrite parse_query_genres.
  set (found := _extract_genres _).
  assert (Hsub : found `sublist_of` Reference.canonical_genres)
    by apply triggered_sublist.
  assert (Hfix : normalized_list found = found).
  { apply normalized_list_fixed.
    apply Forall_forall. intros name Hin.
    apply (proj1 (Forall_forall _ _) canonical_genres_standard).
    exact (elem_of_sublist _ _ _ Hin Hsub). }
  assert (Hnodup : NoDup found)
    by (eapply sublist_NoDup; [exact canonical_genres_NoDup | exact Hsub]).
  split; [exact Hsub|]. split; [exact Hfix|].
  unfold normalize_filters, _normalize_genres. simpl.
  rewrite parse_query_genres. fold found. rewrite Hfix.
  split; [apply elements_list_to_set; exact Hnodup | apply NoDup_elements].
Qed.

End Normaliser.

(** * Properties of the candidate filter *)

Section Filter.
Import RecommendationEngine.

Lemma filter_fuse {A : Type} (p q : A -> bool) (l : list A) :
  List.filter p (List.filter q l) = List.filter (fun x => q x && p x) l.
Proof.
  induction l as [|x l IH]; [reflexivity|]. cbn [List.filter].
  destruct (q x); cbn [List.filter andb]; [destruct (p x)|]; rewrite IH; reflexivity.
Qed.

Lemma filter_when {A : Type} (c : bool) (p : A -> bool) (l : list A) :
  (if c then List.filter p l else l) = List.filter (fun x => negb c || p x) l.
Proof.
  destruct c; cbn [negb orb]; [reflexivity|].
  induction l as [|x l IH]; [reflexivity|]. cbn [List.filter]. rewrite <- IH. reflexivity.
Qed.

Lemma filter_bound {A : Type} (o : option Z) (p : Z -> A -> bool) (l : list A) :
  match o with Some b => List.filter (p b) l | None => l end =
  List.filter (fun x => match o with Some b => p b x | None => true end) l.
Proof.
  destruct o; [reflexivity|].
  induction l as [|x l IH]; [reflexivity|]. cbn [List.filter]. rewrite <- IH. reflexivity.
Qed.

Lemma existsb_map {A B : Type} (f : B -> bool) (g : A -> B) (l : list A) :
  existsb f (map g l) = existsb (fun x => f (g x)) l.
Proof. induction l as [|x l IH]; [reflexivity|]. cbn [map existsb]. rewrite IH. reflexivity. Qed.

(** The chain of list comprehensions is one filter by the conjunction. *)
Lemma filter_movies_retained (e : engine) (filters : ParsedFilters) :
  _filter_movies e filters = List.filter (Reference.retained filters) (all_movies e).
Proof.
  unfold _filter_movies. cbv zeta.
  rewrite !filter_when, !filter_bound, !filter_fuse.
  apply List.filter_ext. intros m. unfold Reference.retained.
  rewrite existsb_map, <- !andb_assoc. reflexivity.
Qed.

Lemma append_cons (c : ascii) (a b : string) :
  String.append (String c a) b = String c (String.append a b).
Proof. reflexivity. Qed.

Lemma prefix_nil (s : string) : String.prefix EmptyString s = true.
Proof. destruct s; reflexivity. Qed.

Lemma prefix_cons (c d : ascii) (needle s : string) :
  String.prefix (String c needle) (String d s) =
  if ascii_dec c d then String.prefix needle s else false.
Proof. reflexivity. Qed.

Lemma prefix_spec (needle s : string) :
  String.prefix needle s = true <-> exists after, s = String.append needle after.
Proof.
  revert s. induction needle as [|c needle IH]; intros s.
  - rewrite prefix_nil. split; [intros _; exists s; reflexivity | reflexivity].
  - destruct s as [|d s].
    + split; [intros H; inversion H | intros [after H]; rewrite append_cons in H; inversion H].
    + rewrite prefix_cons. destruct (ascii_dec c d) as [->|Hne].
      * rewrite IH. split; intros [after H]; exists after;
          rewrite append_cons in *; congruence.
      * split; [intros H; inversion H |
                intros [after H]; rewrite append_cons in H; congruence].
Qed.

Lemma contains_cons (needle : string) (c : ascii) (s : string) :
  Str.contains needle (String c s) =
  String.prefix needle (String c s) || Str.contains needle s.
Proof. reflexivity. Qed.

Lemma contains_prefix (needle s : string) :
  String.prefix needle s = true -> Str.contains needle s = true.
Proof. intros H. destruct s; cbn [Str.contains]; rewrite H; reflexivity. Qed.

Lemma contains_spec (needle s : string) :
  Str.contains needle s = true <-> Reference.substring needle s.
Proof.
  unfold Reference.substring. split.
  - induction s as [|c s IH].
    + cbn [Str.contains]. rewrite orb_false_r. intros Hp.
      apply prefix_spec in Hp. destruct Hp as [after ->].
      exists EmptyString, after. reflexivity.
    + rewrite contains_cons, orb_true_iff. intros [Hp | Hc].
      * apply prefix_spec in Hp. destruct Hp as [after ->].
        exists EmptyString, after. reflexivity.
      * destruct (IH Hc) as (before & after & ->).
        exists (String c before), after. reflexivity.
  - intros (before & after & ->). induction before as [|c before IH].
    + apply contains_prefix. apply prefix_spec. exists after. reflexivity.
    + rewrite append_cons, contains_cons, IH. apply orb_true_r.
Qed.

Lemma tag_in_spec (name : string) (tags : list string) :
  tag_in name tags = true <-> In (Str.lower name) (map Str.lower tags).
Proof.
  unfold tag_in, Str.mem. rewrite existsb_exists. split.
  - intros (x & Hin & Heq). apply String.eqb_eq in Heq. subst x. exact Hin.
  - intros Hin. exists (Str.lower name). split; [exact Hin | apply String.eqb_refl].
Qed.

Lemma truthy_nil {A : Type} (l : list A) : negb (Py.truthy l) = true <-> l = [].
Proof. destruct l; cbn; split; congruence. Qed.

Lemma tag_test_spec (names tags : list string) :
  negb (Py.truthy names) || existsb (fun g => tag_in g tags) names = true <->
  Reference.tag_ok names tags.
Proof.
  unfold Reference.tag_ok. rewrite orb_true_iff, truthy_nil, existsb_exists.
  split; (intros [H | (g & Hin & Hg)]; [left; exact H | right; exists g; split; [exact Hin|]]);
    apply tag_in_spec; exact Hg.
Qed.

Lemma lower_bound_spec (o : option Z) (x : Z) :
  match o with Some lo => (lo <=? x)%Z | None => true end = true <->
  (forall lo, o = Some lo -> (lo <= x)%Z).
Proof.
  destruct o as [lo|]; split.
  - intros H lo' [= <-]. apply Z.leb_le. exact H.
  - intros H. apply Z.leb_le. apply H. reflexivity.
  - intros _ lo [=].
  - reflexivity.
Qed.

Lemma upper_bound_spec (o : option Z) (x : Z) :
  match o with Some hi => (x <=? hi)%Z | None => true end = true <->
  (forall hi, o = Some hi -> (x <= hi)%Z).
Proof.
  destruct o as [hi|]; split.
  - intros H hi' [= <-]. apply Z.leb_le. exact H.
  - intros H. apply Z.leb_le. apply H. reflexivity.
  - intros _ hi [=].
  - reflexivity.
Qed.

Lemma keyword_test_spec (words : list string) (text : string) :
  negb (Py.truthy words) ||
  existsb (fun keyword => Str.contains (Str.lower keyword) text) words = true <->
  (words = [] \/
   exists keyword, In keyword words /\ Reference.substring (Str.lower keyword) text).
Proof.
  rewrite orb_true_iff, truthy_nil, existsb_exists.
  split; (intros [H | (k & Hin & Hk)]; [left; exact H | right; exists k; split; [exact Hin|]]);
    apply contains_spec; exact Hk.
Qed.

Lemma retained_passes (filters : ParsedFilters) (m : Movie) :
  Reference.retained filters m = true <-> Reference.passes filters m.
Proof.
  unfold Reference.retained, Reference.passes.
  rewrite !andb_true_iff, !tag_test_spec, !lower_bound_spec, !upper_bound_spec,
    keyword_test_spec.
  tauto.
Qed.

(** Candidate filtering is the conjunction over the present fields: an
    item of the catalogue is retained exactly when one requested genre
    is, lowercased, one of its lowercased genre tags (if genres are
    requested), likewise for actors and its cast, its runtime and release
    year lie within the bounds that are set, and one keyword, lowercased,
    occurs in its lowercased overview (if keywords are given). The
    retained items keep the order of the catalogue, and with no filter set
    every item passes. *)
Lemma filter_movies_conjunction (e : engine) (filters : ParsedFilters) :
  _filter_movies e filters = List.filter (Reference.retained filters) (all_movies e) /\
  (forall m, In m (_filter_movies e filters) <->
             In m (all_movies e) /\ Reference.passes filters m) /\
  _filter_movies e no_filters = all_movies e.
Proof.
  split; [apply filter_movies_retained|]. split.
  - intros m. rewrite filter_movies_retained, filter_In, retained_passes. reflexivity.
  - rewrite filter_movies_retained. unfold Reference.retained. cbn.
    induction (all_movies e) as [|m l IH]; [reflexivity|].
    cbn [List.filter]. rewrite IH. reflexivity.
Qed.

End Filter.

(** * Properties of the strategy assignment *)

Section Assignment.
Import RecommendationEngine.

(** C1. Strategy assignment is deterministic and stable within a process:
    a call leaves the interpreter state as it was, and two calls with the
    same session identifier made in any two states of one process (the
    same hash secret, whatever the clock, the random state and the number
    of calls served) return the same strategy; in particular a call and
    the call that follows it agree. *)
Theorem assign_variant_stable (str_hash : Z -> string -> Z) (session_id : string)
    (st1 st2 : Interpreter) :
  hash_secret st1 = hash_secret st2 ->
  fst (assign_variant str_hash session_id st1) =
  fst (assign_variant str_hash session_id st2) /\
  snd (assign_variant str_hash session_id st1) = st1 /\
  fst (assign_variant str_hash session_id
         (snd (assign_variant str_hash session_id st1))) =
  fst (assign_variant str_hash session_id st1).
Proof.
  intros Hsecret. unfold assign_variant, hash. cbn [fst snd].
  rewrite Hsecret. repeat split.
Qed.

Lemma assign_variant_stable_witness :
  let str_hash := fun (secret : Z) (s : string) => (secret + Z.of_nat (String.length s))%Z in
  let st1 := {| hash_secret := 7; clock := 0; random_state := 1; calls_served := 0 |} in
  let st2 := {| hash_secret := 7; clock := 3600; random_state := 42; calls_served := 9 |} in
  fst (assign_variant str_hash "session-1" st1) =
  fst (assign_variant str_hash "session-1" st2) /\
  snd (assign_variant str_hash "session-1" st1) = st1 /\
  fst (assign_variant str_hash "session-1"
         (snd (assign_variant str_hash "session-1" st1))) =
  fst (assign_variant str_hash "session-1" st1).
Proof.
  intros str_hash st1 st2.
  apply (assign_variant_stable str_hash "session-1" st1 st2). reflexivity.
Defined.

End Assignment.

(** * The stable sort by decreasing key *)

Section SortFacts.
Context {A : Type} (key : A -> Q).

Local Abbreviation before := (Reference.before key).
Local Abbreviation tied := (Reference.tied key).

Lemma insert_desc_perm (x : A) (l : list A) : Py.insert_desc key x l ≡ₚ x :: l.
Proof.
  induction l as [|y l IH]; cbn [Py.insert_desc]; [reflexivity|].
  destruct (Qle_bool (key y) (key x)); [reflexivity|].
  rewrite IH. apply Permutation_swap.
Qed.

Lemma sort_desc_perm (l : list A) : Py.sort_desc key l ≡ₚ l.
Proof.
  induction l as [|x l IH]; [reflexivity|].
  cbn [Py.sort_desc fold_right]. rewrite insert_desc_perm.
  apply Permutation_skip. exact IH.
Qed.

Lemma sort_desc_length (l : list A) : length (Py.sort_desc key l) = length l.
Proof. apply Permutation_length, sort_desc_perm. Qed.

Lemma insert_desc_sorted (x : A) (l : list A) :
  StronglySorted before l -> StronglySorted before (Py.insert_desc key x l).
Proof.
  induction 1 as [|y l Hsorted IH Hall]; cbn [Py.insert_desc].
  - constructor; constructor.
  - destruct (Qle_bool (key y) (key x)) eqn:Hle.
    + apply Qle_bool_iff in Hle. constructor; [constructor; assumption|].
      constructor; [exact Hle|].
      eapply Forall_impl; [exact Hall|]. intros z Hz. unfold Reference.before in *.
      eapply Qle_trans; [exact Hz | exact Hle].
    + constructor; [exact IH|].
      rewrite insert_desc_perm. constructor; [|exact Hall].
      unfold Reference.before. apply Qlt_le_weak, Qnot_le_lt. intros Hyx.
      apply Qle_bool_iff in Hyx. congruence.
Qed.

Lemma sort_desc_sorted (l : list A) : StronglySorted before (Py.sort_desc key l).
Proof.
  induction l as [|x l IH]; [constructor|].
  cbn [Py.sort_desc fold_right]. apply insert_desc_sorted. exact IH.
Qed.

Lemma insert_desc_tied (v : Q) (x : A) (l : list A) :
  tied v (Py.insert_desc key x l) = tied v (x :: l).
Proof.
  unfold Reference.tied. induction l as [|y l IH]; cbn [Py.insert_desc]; [reflexivity|].
  destruct (Qle_bool (key y) (key x)) eqn:Hle; [reflexivity|].
  cbn [List.filter] in *. rewrite IH.
  destruct (Qeq_bool (key x) v) eqn:Hx, (Qeq_bool (key y) v) eqn:Hy; try reflexivity.
  exfalso. apply Qeq_bool_iff in Hx, Hy.
  assert (Hyx : Qle_bool (key y) (key x) = true)
    by (apply Qle_bool_iff; rewrite Hx, Hy; apply Qle_refl).
  congruence.
Qed.

(** Stability: elements with equal keys keep the order they came in. *)
Lemma sort_desc_tied (v : Q) (l : list A) : tied v (Py.sort_desc key l) = tied v l.
Proof.
  induction l as [|x l IH]; [reflexivity|].
  cbn [Py.sort_desc fold_right]. rewrite insert_desc_tied.
  unfold Reference.tied in *. cbn [List.filter]. fold (Py.sort_desc key l). rewrite IH. reflexivity.
Qed.

Lemma slice_to_firstn (limit : Z) (l : list A) :
  exists n, Py.slice_to limit l = firstn n l /\
            ((0 <= limit)%Z -> n = Z.to_nat limit) /\
            ((limit < 0)%Z -> n = (length l - Z.to_nat (- limit))%nat).
Proof.
  unfold Py.slice_to. destruct (Z.leb_spec 0 limit).
  - exists (Z.to_nat limit). split; [reflexivity|]. split; intros; [reflexivity | lia].
  - exists (length l - Z.to_nat (- limit))%nat.
    split; [reflexivity|]. split; intros; [lia | reflexivity].
Qed.

Lemma tied_firstn (v : Q) (n : nat) (l : list A) :
  tied v (firstn n l) `prefix_of` tied v l.
Proof.
  unfold Reference.tied. rewrite <- (firstn_skipn n l) at 2. rewrite List.filter_app.
  eexists. reflexivity.
Qed.

Lemma sorted_firstn (n : nat) (l : list A) :
  StronglySorted before l -> StronglySorted before (firstn n l).
Proof.
  revert n. induction l as [|x l IH]; intros n Hs; destruct n; cbn [firstn];
    try constructor.
  - apply IH. inversion Hs; assumption.
  - inversion Hs as [|? ? _ Hall]; subst.
    apply Forall_forall. intros y Hy.
    apply (proj1 (Forall_forall _ _) Hall).
    exact (elem_of_sublist _ _ _ Hy (sublist_take _ _)).
Qed.

End SortFacts.

(** * Properties of the ranking engine *)

Section Ranking.
Import RecommendationEngine.

Lemma sort_desc_cons {A : Type} (key : A -> Q) (x : A) (l : list A) :
  Py.sort_desc key (x :: l) = Py.insert_desc key x (Py.sort_desc key l).
Proof. reflexivity. Qed.

Lemma insert_desc_scored (score : Movie -> Q) (x : Movie) (l : list Movie) :
  Py.insert_desc snd (x, score x) (map (fun m => (m, score m)) l) =
  map (fun m => (m, score m)) (Py.insert_desc score x l).
Proof.
  induction l as [|y l IH]; [reflexivity|]. cbn [map Py.insert_desc snd].
  destruct (Qle_bool (score y) (score x)); [reflexivity|].
  rewrite IH. reflexivity.
Qed.

Lemma sort_desc_scored (score : Movie -> Q) (l : list Movie) :
  Py.sort_desc snd (map (fun m => (m, score m)) l) =
  map (fun m => (m, score m)) (Py.sort_desc score l).
Proof.
  induction l as [|x l IH]; [reflexivity|].
  cbn [map]. rewrite !sort_desc_cons, IH. apply insert_desc_scored.
Qed.

Lemma slice_to_map {A B : Type} (f : A -> B) (limit : Z) (l : list A) :
  map f (Py.slice_to limit l) = Py.slice_to limit (map f l).
Proof.
  unfold Py.slice_to. rewrite length_map.
  destruct (0 <=? limit)%Z; symmetry; apply firstn_map.
Qed.

Lemma map_fst_scored (score : Movie -> Q) (l : list Movie) :
  map fst (map (fun m => (m, score m)) l) = l.
Proof. rewrite map_map. cbn [fst]. apply map_id. Qed.

Lemma popularity_strategy_slice (movies : list Movie) (filters : ParsedFilters) (limit : Z) :
  _popularity_strategy movies filters limit =
  Py.slice_to limit (Py.sort_desc (popularity_score filters) movies).
Proof.
  unfold _popularity_strategy. cbv zeta.
  rewrite slice_to_map, sort_desc_scored, map_fst_scored. reflexivity.
Qed.

Lemma similarity_strategy_slice (e : engine) (movies : list Movie)
    (filters : ParsedFilters) (limit : Z) :
  _similarity_strategy e movies filters limit =
  Py.slice_to limit (Py.sort_desc (similarity_score e filters) movies).
Proof.
  unfold _similarity_strategy. destruct movies as [|m movies]; [reflexivity|].
  cbn [Py.truthy negb]. cbv zeta.
  rewrite slice_to_map, sort_desc_scored, map_fst_scored. reflexivity.
Qed.

(** Every call returns the whole ranking cut by the slice [[:limit]]. *)
Lemma get_recommendations_slice (e : engine) (filters : ParsedFilters)
    (variant : RecommendationStrategy) (limit : Z) :
  get_recommendations e filters variant limit =
  Py.slice_to limit (Reference.ranking e filters variant).
Proof.
  unfold get_recommendations, Reference.ranking. cbv zeta. destruct variant.
  - destruct (_filter_movies e filters) as [|m l] eqn:Hf.
    + cbn [Py.truthy negb Py.sort_desc fold_right]. unfold Py.slice_to.
      destruct (0 <=? limit)%Z; rewrite firstn_nil; reflexivity.
    + cbn [Py.truthy negb]. apply popularity_strategy_slice.
  - apply similarity_strategy_slice.
Qed.

(** For every limit above zero the popularity strategy returns at most
    [limit] items, sorted by the non-increasing score of its loop, and
    items of equal score stand in the order of the catalogue: those of a
    given score in the result are the first of the retained items of that
    score. The result is the first [limit] items of the stable sort of
    the candidates. *)
Lemma popularity_recommendations_ranked (e : engine) (filters : ParsedFilters)
    (limit : Z) :
  (0 < limit)%Z ->
  let result := get_recommendations e filters POPULARITY limit in
  let score := popularity_score filters in
  (length result <= Z.to_nat limit)%nat /\
  StronglySorted (Reference.before score) result /\
  (forall v, Reference.tied score v result `prefix_of`
             Reference.tied score v
               (List.filter (Reference.retained filters) (all_movies e))) /\
  result = firstn (Z.to_nat limit) (Py.sort_desc score (_filter_movies e filters)).
Proof.
  intros Hlimit result score. subst result.
  rewrite get_recommendations_slice. unfold Reference.ranking. cbv zeta. fold score.
  destruct (slice_to_firstn limit (Py.sort_desc score (_filter_movies e filters)))
    as (n & -> & Hn & _).
  rewrite (Hn ltac:(lia)). split; [apply firstn_le_length|].
  split; [apply sorted_firstn, sort_desc_sorted|]. split; [|reflexivity].
  intros v. rewrite <- filter_movies_retained.
  rewrite <- (sort_desc_tied score v (_filter_movies e filters)).
  apply tied_firstn.
Qed.

(** C3. When no item passes the filters, the popularity strategy returns
    the empty sequence, and the similarity strategy ranks the whole
    catalogue instead: for a limit above zero and a catalogue that is not
    empty its result is not empty, has [min limit n] items for a catalogue
    of [n], and is drawn from the catalogue. Neither call fails. *)
Theorem empty_candidates (e : engine) (filters : ParsedFilters) (limit : Z) :
  _filter_movies e filters = [] ->
  get_recommendations e filters POPULARITY limit = [] /\
  get_recommendations e filters SIMILARITY limit =
    _similarity_strategy e (all_movies e) filters limit /\
  ((0 < limit)%Z -> all_movies e <> [] ->
   let result := get_recommendations e filters SIMILARITY limit in
   result <> [] /\
   length result = Nat.min (Z.to_nat limit) (length (all_movies e)) /\
   (forall m, In m result -> In m (all_movies e)) /\
   exists rest, result ++ rest ≡ₚ all_movies e).
Proof.
  intros Hnone. unfold get_recommendations. rewrite Hnone. cbn [Py.truthy negb].
  split; [reflexivity|]. split; [reflexivity|].
  intros Hlimit Hcat.
  rewrite similarity_strategy_slice.
  set (sorted := Py.sort_desc (similarity_score e filters) (all_movies e)).
  assert (Hperm : sorted ≡ₚ all_movies e) by apply sort_desc_perm.
  destruct (slice_to_firstn limit sorted) as (n & -> & Hn & _).
  rewrite (Hn ltac:(lia)).
  assert (Hlen : length (firstn (Z.to_nat limit) sorted) =
                 Nat.min (Z.to_nat limit) (length (all_movies e))).
  { rewrite length_firstn, (Permutation_length Hperm). reflexivity. }
  split; [|split; [exact Hlen|split]].
  - intros Hnil. rewrite Hnil in Hlen. cbn [length] in Hlen.
    destruct (all_movies e); [congruence | cbn [length] in Hlen; lia].
  - intros m Hin. apply (Permutation_in m Hperm).
    rewrite <- (firstn_skipn (Z.to_nat limit) sorted). apply in_or_app. left. exact Hin.
  - exists (skipn (Z.to_nat limit) sorted). rewrite firstn_skipn. exact Hperm.
Qed.

Lemma empty_candidates_witness :
  get_recommendations Reference.sample_engine Reference.nothing_matches POPULARITY 5 = [] /\
  get_recommendations Reference.sample_engine Reference.nothing_matches SIMILARITY 5 =
    _similarity_strategy Reference.sample_engine (all_movies Reference.sample_engine)
      Reference.nothing_matches 5 /\
  ((0 < 5)%Z -> all_movies Reference.sample_engine <> [] ->
   let result :=
     get_recommendations Reference.sample_engine Reference.nothing_matches SIMILARITY 5 in
   result <> [] /\
   length result = Nat.min (Z.to_nat 5) (length (all_movies Reference.sample_engine)) /\
   (forall m, In m result -> In m (all_movies Reference.sample_engine)) /\
   exists rest, result ++ rest ≡ₚ all_movies Reference.sample_engine).
Proof.
  apply (empty_candidates Reference.sample_engine Reference.nothing_matches 5).
  vm_compute. reflexivity.
Defined.

(** C8, as the specification words it, does not hold: a limit of zero or
    below is not rejected. On the sample catalogue, without filters, limit
    0 returns the empty list and limit -1 returns the ranking without its
    last item (ids 2 and 3, then 1 is dropped). *)
Lemma recommend_nonpositive_limit_counterexample :
  Reference.recommend Reference.sample_engine no_filters POPULARITY 0 =
    Reference.Returns [] /\
  (exists result,
     Reference.recommend Reference.sample_engine no_filters POPULARITY (-1) =
       Reference.Returns result /\
     map id result = [2%Z; 3%Z]) /\
  ~ (forall e filters strategy limit,
       (limit <= 0)%Z ->
       Reference.recommend e filters strategy limit = Reference.RaisesInvalidArgument).
Proof.
  split; [vm_compute; reflexivity|]. split.
  - eexists. split; [reflexivity|]. vm_compute. reflexivity.
  - intros Hclaim.
    specialize (Hclaim Reference.sample_engine no_filters POPULARITY 0%Z ltac:(lia)).
    discriminate Hclaim.
Qed.

(** C8, amended. A call with a limit of zero or below returns: the empty
    list for zero, and for a negative limit the whole ranking without its
    last [-limit] items, as the slice [[:limit]] gives it. *)
Theorem recommend_nonpositive_limit (e : engine) (filters : ParsedFilters)
    (strategy : RecommendationStrategy) (limit : Z) :
  (limit <= 0)%Z ->
  let full := Reference.ranking e filters strategy in
  Reference.recommend e filters strategy limit =
    Reference.Returns
      (if (limit =? 0)%Z then []
       else firstn (length full - Z.to_nat (- limit)) full).
Proof.
  intros Hlimit full. unfold Reference.recommend. f_equal.
  rewrite get_recommendations_slice. fold full. unfold Py.slice_to.
  destruct (Z.eqb_spec limit 0) as [-> | Hne]; [reflexivity|].
  destruct (Z.leb_spec 0 limit); [lia | reflexivity].
Qed.

Lemma recommend_nonpositive_limit_witness :
  let full := Reference.ranking Reference.sample_engine no_filters SIMILARITY in
  Reference.recommend Reference.sample_engine no_filters SIMILARITY (-1) =
    Reference.Returns
      (if (-1 =? 0)%Z then []
       else firstn (length full - Z.to_nat (- -1)) full).
Proof.
  apply (recommend_nonpositive_limit Reference.sample_engine no_filters SIMILARITY (-1)).
  lia.
Defined.

End Ranking.


(** * Further properties of the ranking engine *)

Section Scores.
Import RecommendationEngine.
Local Open Scope Q_scope.

Lemma fold_bonus_bounds {A : Type} (test : A -> bool) (bonus : Q) (l : list A) (start : Q) :
  0 <= bonus ->
  start <= fold_left (fun boost x => if test x then boost + bonus else boost) l start /\
  fold_left (fun boost x => if test x then boost + bonus else boost) l start
    <= start + inject_Z (Z.of_nat (length l)) * bonus.
Proof.
  intros Hbonus. revert start. induction l as [|x l IH]; intros start.
  - cbn [fold_left length]. change (inject_Z (Z.of_nat 0)) with 0. split; lra.
  - cbn [fold_left]. rewrite length_cons, Nat2Z.inj_succ, <- Z.add_1_r, inject_Z_plus.
    change (inject_Z 1) with 1.
    destruct (IH (if test x then start + bonus else start)) as [Hlo Hhi].
    destruct (test x); split; nra.
Qed.

Lemma cap_at_one_bounds (boost : Q) : 0 <= boost -> 0 <= cap_at_one boost <= 1.
Proof.
  intros Hboost. unfold cap_at_one. destruct (Qle_bool boost 1) eqn:Hle.
  - apply Qle_bool_iff in Hle. split; assumption.
  - split; lra.
Qed.

Lemma calculate_vibe_boost_range (movie : Movie) (vibe_ : string) :
  0 <= _calculate_vibe_boost movie vibe_ <= 1.
Proof.
  unfold _calculate_vibe_boost. destruct (lookup vibe_ vibe_keywords) as [words|];
    [|split; lra].
  cbv zeta. apply cap_at_one_bounds.
  match goal with
  | |- 0 <= fold_left ?f ?l (fold_left ?g ?l' 0) =>
      pose proof (proj1 (fold_bonus_bounds
        (fun g0 => existsb (fun keyword => Str.contains keyword (Str.lower g0)) words)
        0.5 l' 0 ltac:(lra))) as H1;
      pose proof (proj1 (fold_bonus_bounds
        (fun keyword => Str.contains keyword (Str.lower (overview movie)))
        0.1 l (fold_left g l' 0) ltac:(lra))) as H2
  end.
  cbv beta in *. lra.
Qed.

(** X1. The mood boost of [_calculate_vibe_boost] lies between 0 and 1 for
    every movie and every mood, and is 0 for a mood the table lacks. *)
Theorem vibe_boost_bounds (movie : Movie) (vibe_ : string) :
  0 <= _calculate_vibe_boost movie vibe_ <= 1 /\
  match lookup vibe_ vibe_keywords with
  | None => _calculate_vibe_boost movie vibe_ = 0
  | Some _ => True
  end.
Proof.
  split; [apply calculate_vibe_boost_range|].
  unfold _calculate_vibe_boost. destruct (lookup vibe_ vibe_keywords); [exact I | reflexivity].
Qed.

Lemma hits_bounds (names tags : list string) :
  0 <= hits names tags <= inject_Z (Z.of_nat (length names)).
Proof.
  unfold hits. split.
  - change 0 with (inject_Z 0). rewrite <- Zle_Qle. lia.
  - rewrite <- Zle_Qle. apply inj_le.
    induction names as [|n names IH]; cbn [List.filter length]; [lia|].
    destruct (tag_in n tags); cbn [length]; lia.
Qed.

Lemma vibe_term_bounds (movie : Movie) (filters : ParsedFilters) :
  0 <= vibe_term movie filters <= 1.
Proof.
  unfold vibe_term. destruct (vibe filters) as [[|c v]|]; try (split; lra).
  apply calculate_vibe_boost_range.
Qed.

Lemma at_least_zero_bounds (x : Q) : x <= 1 -> 0 <= at_least_zero x <= 1.
Proof.
  intros Hx. unfold at_least_zero. destruct (Qle_bool x 0) eqn:Hle.
  - split; lra.
  - split; [|exact Hx]. apply Qlt_le_weak, Qnot_le_lt. intros H.
    apply Qle_bool_iff in H. congruence.
Qed.

(** X2. The boosts of the popularity strategy never lower a score and are
    bounded: the score of a movie is at least its popularity and at most
    its popularity plus 0.5 per requested genre, 0.3 per requested actor,
    1 for the mood and 0.2 for the runtime; with no filter set the score
    is the popularity. *)
Theorem popularity_score_bounds (filters : ParsedFilters) (movie : Movie) :
  popularity movie <= popularity_score filters movie /\
  popularity_score filters movie <=
    popularity movie + inject_Z (Z.of_nat (length (genres filters))) * 0.5
                     + inject_Z (Z.of_nat (length (actors filters))) * 0.3
                     + 1 + 0.2 /\
  popularity_score no_filters movie == popularity movie.
Proof.
  assert (Hg := hits_bounds (genres filters) (genre movie)).
  assert (Ha := hits_bounds (actors filters) (cast movie)).
  assert (Hv := vibe_term_bounds movie filters).
  assert (Hng : 0 <= inject_Z (Z.of_nat (length (genres filters)))) by lra.
  assert (Hna : 0 <= inject_Z (Z.of_nat (length (actors filters)))) by lra.
  split; [|split].
  3: { unfold popularity_score, vibe_term. cbn. ring. }
  all: unfold popularity_score; cbv zeta;
    destruct (Py.truthy (genres filters)), (Py.truthy (actors filters));
    destruct (set_and_nonzero (runtime_min filters)) as [lo|],
             (set_and_nonzero (runtime_max filters)) as [hi|];
    try match goal with
        | |- context [at_least_zero ?x] =>
            let H := fresh in
            assert (H : 0 <= at_least_zero x <= 1)
              by (apply at_least_zero_bounds;
                  match goal with
                  | |- 1 - Qabs ?d / 60 <= 1 =>
                      pose proof (Qabs_nonneg d);
                      assert (0 <= Qabs d / 60) by (apply Qle_shift_div_l; lra); lra
                  end)
        end;
    nra.
Qed.

End Scores.

(** * Further properties of the recommendations *)

Section Recommendations.
Import RecommendationEngine.

(** The items a strategy ranks. *)
Lemma ranking_perm (e : engine) (filters : ParsedFilters)
    (variant : RecommendationStrategy) :
  Reference.ranking e filters variant ≡ₚ
  match variant with
  | POPULARITY => _filter_movies e filters
  | SIMILARITY =>
      if Py.truthy (_filter_movies e filters) then _filter_movies e filters
      else all_movies e
  end.
Proof. unfold Reference.ranking. cbv zeta. destruct variant; apply sort_desc_perm. Qed.

Lemma filter_movies_sublist (e : engine) (filters : ParsedFilters) :
  _filter_movies e filters `sublist_of` all_movies e.
Proof.
  rewrite filter_movies_retained.
  induction (all_movies e) as [|m l IH]; cbn [List.filter]; [constructor|].
  destruct (Reference.retained filters m); [apply sublist_skip | apply sublist_cons]; exact IH.
Qed.

Lemma candidates_sublist (e : engine) (filters : ParsedFilters)
    (variant : RecommendationStrategy) :
  match variant with
  | POPULARITY => _filter_movies e filters
  | SIMILARITY =>
      if Py.truthy (_filter_movies e filters) then _filter_movies e filters
      else all_movies e
  end `sublist_of` all_movies e.
Proof.
  destruct variant; [apply filter_movies_sublist|].
  destruct (Py.truthy _); [apply filter_movies_sublist | reflexivity].
Qed.

Lemma recommendations_rest (e : engine) (filters : ParsedFilters)
    (variant : RecommendationStrategy) (limit : Z) :
  exists rest,
    get_recommendations e filters variant limit ++ rest ≡ₚ
    match variant with
    | POPULARITY => _filter_movies e filters
    | SIMILARITY =>
        if Py.truthy (_filter_movies e filters) then _filter_movies e filters
        else all_movies e
    end.
Proof.
  rewrite get_recommendations_slice.
  destruct (slice_to_firstn limit (Reference.ranking e filters variant)) as (n & -> & _).
  exists (skipn n (Reference.ranking e filters variant)).
  rewrite firstn_skipn. apply ranking_perm.
Qed.

(** X3. Whatever the limit, also zero or negative, the recommendations
    are drawn from the items the strategy ranks (the candidates, or for
    the similarity strategy the whole catalogue when there are none),
    each at most as often as it occurs there; every recommended item is
    in the catalogue, and every item the popularity strategy recommends
    passes the filters. *)
Theorem recommendations_from_candidates (e : engine) (filters : ParsedFilters)
    (variant : RecommendationStrategy) (limit : Z) :
  (exists rest,
     get_recommendations e filters variant limit ++ rest ≡ₚ
     match variant with
     | POPULARITY => _filter_movies e filters
     | SIMILARITY =>
         if Py.truthy (_filter_movies e filters) then _filter_movies e filters
         else all_movies e
     end) /\
  Forall (fun m => In m (all_movies e)) (get_recommendations e filters variant limit) /\
  Forall (fun m => In m (all_movies e) /\ Reference.passes filters m)
         (get_recommendations e filters POPULARITY limit).
Proof.
  split; [apply recommendations_rest|]. split.
  - destruct (recommendations_rest e filters variant limit) as [rest Hperm].
    apply Forall_forall. intros m Hin. apply list_elem_of_In.
    eapply elem_of_sublist; [|apply (candidates_sublist e filters variant)].
    rewrite <- Hperm. apply elem_of_app. left. exact Hin.
  - destruct (recommendations_rest e filters POPULARITY limit) as [rest Hperm].
    apply Forall_forall. intros m Hin.
    assert (Hcand : m ∈ _filter_movies e filters)
      by (rewrite <- Hperm; apply elem_of_app; left; exact Hin).
    apply list_elem_of_In in Hcand.
    rewrite filter_movies_retained in Hcand. apply filter_In in Hcand.
    destruct Hcand as [Hcat Hret]. split; [exact Hcat | apply retained_passes, Hret].
Qed.

Lemma map_sublist {A B : Type} (f : A -> B) (l k : list A) :
  l `sublist_of` k -> map f l `sublist_of` map f k.
Proof.
  induction 1; cbn [map]; [constructor | apply sublist_skip | apply sublist_cons];
    assumption.
Qed.

(** X4. A catalogue in which no identifier occurs twice gives
    recommendations in which no identifier occurs twice. *)
Theorem recommendations_distinct (e : engine) (filters : ParsedFilters)
    (variant : RecommendationStrategy) (limit : Z) :
  NoDup (map id (all_movies e)) ->
  NoDup (map id (get_recommendations e filters variant limit)).
Proof.
  intros Hcat.
  destruct (recommendations_rest e filters variant limit) as [rest Hperm].
  assert (Hcand : NoDup (map id (get_recommendations e filters variant limit ++ rest))).
  { rewrite Hperm. eapply sublist_NoDup; [exact Hcat|].
    apply map_sublist, candidates_sublist. }
  rewrite map_app in Hcand. apply NoDup_app in Hcand. apply Hcand.
Qed.

Lemma recommendations_distinct_witness :
  NoDup (map id (get_recommendations Reference.sample_engine no_filters SIMILARITY 2)).
Proof.
  apply (recommendations_distinct Reference.sample_engine no_filters SIMILARITY 2).
  apply (bool_decide_unpack _). vm_compute. exact I.
Defined.

(** X5. For limits that are not negative the result grows with the limit:
    the result for a smaller limit is the beginning of the result for a
    larger one, and its length is the smaller of the limit and the number
    of ranked items. *)
Theorem recommendations_grow_with_limit (e : engine) (filters : ParsedFilters)
    (variant : RecommendationStrategy) (small large : Z) :
  (0 <= small <= large)%Z ->
  get_recommendations e filters variant small `prefix_of`
    get_recommendations e filters variant large /\
  length (get_recommendations e filters variant small) =
    Nat.min (Z.to_nat small) (length (Reference.ranking e filters variant)).
Proof.
  intros [Hsmall Hlarge]. rewrite !get_recommendations_slice. unfold Py.slice_to.
  destruct (Z.leb_spec 0 small); [|lia]. destruct (Z.leb_spec 0 large); [|lia].
  split; [|apply length_firstn].
  replace (Z.to_nat large) with (Z.to_nat small + (Z.to_nat large - Z.to_nat small))%nat by lia.
  set (l := Reference.ranking e filters variant).
  exists (firstn (Z.to_nat large - Z.to_nat small) (skipn (Z.to_nat small) l)).
  symmetry. apply take_take_drop.
Qed.

Lemma recommendations_grow_with_limit_witness :
  get_recommendations Reference.sample_engine no_filters POPULARITY 1 `prefix_of`
    get_recommendations Reference.sample_engine no_filters POPULARITY 2 /\
  length (get_recommendations Reference.sample_engine no_filters POPULARITY 1) =
    Nat.min (Z.to_nat 1)
            (length (Reference.ranking Reference.sample_engine no_filters POPULARITY)).
Proof.
  apply (recommendations_grow_with_limit Reference.sample_engine no_filters POPULARITY 1 2).
  lia.
Defined.

End Recommendations.

(** * Properties of the catalogue lookups *)

Section Lookup.
Import RecommendationEngine.

Lemma movie_index_from_spec (i : nat) (movie_id : Z) (catalogue : list Movie) :
  match movie_index_from i movie_id catalogue with
  | Some j =>
      exists n m, j = (i + n)%nat /\ nth_error catalogue n = Some m /\
                  id m = movie_id /\
                  Forall (fun x => id x <> movie_id) (firstn n catalogue)
  | None => Forall (fun x => id x <> movie_id) catalogue
  end.
Proof.
  revert i. induction catalogue as [|x rest IH]; intros i; cbn [movie_index_from].
  - constructor.
  - destruct (Z.eqb_spec (id x) movie_id) as [Heq | Hne].
    + exists 0%nat, x. repeat split; [lia | exact Heq | constructor].
    + specialize (IH (S i)). destruct (movie_index_from (S i) movie_id rest) as [j|].
      * destruct IH as (n & m & -> & Hnth & Hid & Hbefore).
        exists (S n), m. repeat split; [lia | exact Hnth | exact Hid |].
        cbn [firstn]. constructor; assumption.
      * constructor; assumption.
Qed.

Lemma get_movie_by_id_index (catalog : list Movie) (movie_id : Z) (i : nat) :
  DataLoader.get_movie_by_id catalog movie_id =
  match movie_index_from i movie_id catalog with
  | Some j => nth_error catalog (j - i)
  | None => None
  end.
Proof.
  revert i. induction catalog as [|x rest IH]; intros i;
    cbn [DataLoader.get_movie_by_id movie_index_from]; [reflexivity|].
  destruct (id x =? movie_id)%Z.
  - replace (i - i)%nat with 0%nat by lia. reflexivity.
  - rewrite (IH (S i)).
    pose proof (movie_index_from_spec (S i) movie_id rest) as Hspec.
    destruct (movie_index_from (S i) movie_id rest) as [j|]; [|reflexivity].
    destruct Hspec as (n & m & -> & _).
    replace (S i + n - S i)%nat with n by lia.
    replace (S i + n - i)%nat with (S n) by lia. reflexivity.
Qed.

(** X6. [get_movie_by_id] returns the first movie of the catalogue with the
    identifier asked for: the movies before it have other identifiers; it
    returns nothing exactly when no movie has the identifier. *)
Theorem get_movie_by_id_first (catalog : list Movie) (movie_id : Z) :
  match DataLoader.get_movie_by_id catalog movie_id with
  | Some movie =>
      id movie = movie_id /\
      exists before after,
        catalog = before ++ movie :: after /\
        Forall (fun x => id x <> movie_id) before
  | None => Forall (fun x => id x <> movie_id) catalog
  end.
Proof.
  induction catalog as [|x rest IH]; cbn [DataLoader.get_movie_by_id].
  - constructor.
  - destruct (Z.eqb_spec (id x) movie_id) as [Heq | Hne].
    + split; [exact Heq|]. exists [], rest. split; [reflexivity | constructor].
    + destruct (DataLoader.get_movie_by_id rest movie_id) as [movie|].
      * destruct IH as (Hid & before & after & -> & Hbefore).
        split; [exact Hid|]. exists (x :: before), after.
        split; [reflexivity | constructor; assumption].
      * constructor; assumption.
Qed.

(** X7. In the loop of the similarity strategy the index of a movie of the
    catalogue is always found, so the branch that gives the score 0 to a
    movie without index is not taken for it: the index is that of the
    first movie with the same identifier, the one [get_movie_by_id]
    returns, and lies within the catalogue. *)
Theorem similarity_index_found (e : engine) (movie : Movie) :
  In movie (all_movies e) ->
  exists i,
    movie_index_from 0 (id movie) (all_movies e) = Some i /\
    (i < length (all_movies e))%nat /\
    nth_error (all_movies e) i =
      DataLoader.get_movie_by_id (all_movies e) (id movie) /\
    Forall (fun x => id x <> id movie) (firstn i (all_movies e)).
Proof.
  intros Hin.
  pose proof (movie_index_from_spec 0 (id movie) (all_movies e)) as Hspec.
  pose proof (get_movie_by_id_index (all_movies e) (id movie) 0) as Hget.
  destruct (movie_index_from 0 (id movie) (all_movies e)) as [j|].
  - destruct Hspec as (n & m & -> & Hnth & Hid & Hbefore). cbn [Nat.add] in *.
    exists n. rewrite Nat.sub_0_r in Hget. repeat split.
    + apply nth_error_Some. congruence.
    + symmetry. exact Hget.
    + exact Hbefore.
  - exfalso. apply (proj1 (List.Forall_forall _ _) Hspec movie Hin). reflexivity.
Qed.

Lemma similarity_index_found_witness :
  exists i,
    movie_index_from 0 (id Reference.sample_second) (all_movies Reference.sample_engine)
      = Some i /\
    (i < length (all_movies Reference.sample_engine))%nat /\
    nth_error (all_movies Reference.sample_engine) i =
      DataLoader.get_movie_by_id (all_movies Reference.sample_engine)
        (id Reference.sample_second) /\
    Forall (fun x => id x <> id Reference.sample_second)
           (firstn i (all_movies Reference.sample_engine)).
Proof.
  apply (similarity_index_found Reference.sample_engine Reference.sample_second).
  right. left. reflexivity.
Defined.

End Lookup.

(** * The standalone search against the candidate filter *)

Section Search.
Import RecommendationEngine MetadataMapper.

Lemma lower_char_idem (c : ascii) : Str.lower_char (Str.lower_char c) = Str.lower_char c.
Proof.
  destruct c as [[] [] [] [] [] [] [] []]; vm_compute; reflexivity.
Qed.

Lemma lower_idem (s : string) : Str.lower (Str.lower s) = Str.lower s.
Proof.
  induction s as [|c s IH]; [reflexivity|].
  cbn [Str.lower]. rewrite lower_char_idem, IH. reflexivity.
Qed.

Lemma lower_map_idem (l : list string) :
  map Str.lower (map Str.lower l) = map Str.lower l.
Proof. rewrite map_map. apply map_ext. intros s. apply lower_idem. Qed.

Lemma tag_in_lower (name : string) (tags : list string) :
  tag_in (Str.lower name) tags = tag_in name tags.
Proof. unfold tag_in. rewrite lower_idem. reflexivity. Qed.

Lemma existsb_tag_lower (names tags : list string) :
  existsb (fun x => tag_in (Str.lower x) tags) names =
  existsb (fun a => tag_in a tags) names.
Proof.
  induction names as [|n names IH]; [reflexivity|].
  cbn [existsb]. rewrite tag_in_lower, IH. reflexivity.
Qed.

Lemma existsb_perm {A : Type} (p : A -> bool) (l k : list A) :
  l ≡ₚ k -> existsb p l = existsb p k.
Proof.
  induction 1 as [|x l k _ IH|x y l|l k j _ IH1 _ IH2]; cbn [existsb].
  - reflexivity.
  - rewrite IH. reflexivity.
  - destruct (p x), (p y); reflexivity.
  - rewrite IH1. exact IH2.
Qed.

Lemma truthy_perm {A : Type} (l k : list A) : l ≡ₚ k -> Py.truthy l = Py.truthy k.
Proof.
  intros H. apply Permutation_length in H. destruct l, k; cbn in *; congruence.
Qed.

Lemma truthy_map {A B : Type} (f : A -> B) (l : list A) :
  Py.truthy (map f l) = Py.truthy l.
Proof. destruct l; reflexivity. Qed.

Lemma set_and_nonzero_id (o : option Z) :
  o <> Some 0%Z -> set_and_nonzero o = o.
Proof. destruct o as [[| |]|]; intros H; cbn; congruence. Qed.

(** X8. The search of the data loader, run on the normalised form of some
    filters, returns the candidates of the engine for these filters, in
    the same order, provided normalisation keeps the genres (as it does
    for the genres the interpreter emits) and no bound is zero: the
    loader tests a bound with [if filters.get(...)], which skips a zero
    that the engine, testing [is not None], applies. *)
Theorem search_movies_agrees (e : engine) (filters : ParsedFilters) :
  norm_genres (normalize_filters filters) ≡ₚ genres filters ->
  runtime_min filters <> Some 0%Z -> runtime_max filters <> Some 0%Z ->
  year_min filters <> Some 0%Z -> year_max filters <> Some 0%Z ->
  DataLoader.search_movies (all_movies e) (normalize_filters filters) =
  _filter_movies e filters.
Proof.
  intros Hgenres Hrmin Hrmax Hymin Hymax.
  unfold DataLoader.search_movies, _filter_movies. cbv zeta.
  cbn [norm_actors norm_keywords norm_runtime_min norm_runtime_max
       norm_year_min norm_year_max normalize_filters].
  rewrite !set_and_nonzero_id by assumption.
  rewrite !truthy_map, (truthy_perm _ _ Hgenres), lower_map_idem.
  rewrite !filter_when, !filter_bound, !filter_fuse.
  apply List.filter_ext. intros m.
  rewrite (existsb_perm _ _ _ Hgenres), (existsb_map _ Str.lower (actors filters)).
  rewrite existsb_tag_lower. reflexivity.
Qed.

Lemma search_movies_agrees_witness :
  DataLoader.search_movies (all_movies Reference.sample_engine)
    (normalize_filters
       {| genres := ["Drama"]; actors := ["Tom Hanks"]; runtime_min := None;
          runtime_max := Some 150%Z; vibe := None; keywords := ["story"];
          year_min := Some 1990%Z; year_max := None |}) =
  _filter_movies Reference.sample_engine
    {| genres := ["Drama"]; actors := ["Tom Hanks"]; runtime_min := None;
       runtime_max := Some 150%Z; vibe := None; keywords := ["story"];
       year_min := Some 1990%Z; year_max := None |}.
Proof.
  apply (search_movies_agrees Reference.sample_engine); try discriminate.
  vm_compute. reflexivity.
Defined.

End Search.

(** * Properties of the metrics *)

Section Metrics.
Import RecommendationMetrics.

(** X9. The click-through rate never divides by zero: without impressions
    it is 0; otherwise, when the clicks are between zero and the number of
    impressions, it lies between 0 and 100. *)
Theorem calculate_ctr_bounds (shown clicked : Z) :
  (0 <= clicked <= shown)%Z ->
  (0 <= calculate_ctr shown clicked <= 100)%Q /\
  calculate_ctr 0 clicked = 0%Q.
Proof.
  intros [Hlo Hhi]. split; [|reflexivity].
  unfold calculate_ctr. destruct (Z.eqb_spec shown 0) as [-> | Hne].
  - split; lra.
  - assert (Hs : (0 < inject_Z shown)%Q)
      by (change 0%Q with (inject_Z 0); rewrite <- Zlt_Qlt; lia).
    assert (Hc : (0 <= inject_Z clicked <= inject_Z shown)%Q)
      by (change 0%Q with (inject_Z 0); rewrite <- !Zle_Qle; lia).
    assert (Hq : (0 <= inject_Z clicked / inject_Z shown <= 1)%Q).
    { split; [apply Qle_shift_div_l; [exact Hs | lra] |
              apply Qle_shift_div_r; [exact Hs | lra]]. }
    lra.
Qed.

Lemma calculate_ctr_bounds_witness :
  (0 <= calculate_ctr 100 5 <= 100)%Q /\ calculate_ctr 0 5 = 0%Q.
Proof. apply (calculate_ctr_bounds 100 5). lia. Defined.

Lemma count_events_app (variant_ event_type : string)
    (events more : list (gmap string value)) :
  count_events variant_ event_type (events ++ more) =
  (count_events variant_ event_type events + count_events variant_ event_type more)%nat.
Proof. unfold count_events. rewrite List.filter_app, length_app. reflexivity. Qed.

Lemma event_classes_exclusive (e : gmap string value) :
  (Nat.b2n (get_is e "variant" "A" && get_is e "event_type" "impression") +
   Nat.b2n (get_is e "variant" "A" && get_is e "event_type" "click") +
   Nat.b2n (get_is e "variant" "B" && get_is e "event_type" "impression") +
   Nat.b2n (get_is e "variant" "B" && get_is e "event_type" "click") <= 1)%nat.
Proof.
  unfold get_is.
  destruct (e !! "variant") as [[v| |]|], (e !! "event_type") as [[t| |]|];
    repeat case_bool_decide; simplify_eq; cbn; lia.
Qed.

Lemma count_events_disjoint (events : list (gmap string value)) :
  (count_events "A" "impression" events + count_events "A" "click" events +
   count_events "B" "impression" events + count_events "B" "click" events
   <= length events)%nat.
Proof.
  unfold count_events. induction events as [|e events IH]; [reflexivity|].
  cbn [List.filter]. pose proof (event_classes_exclusive e) as He.
  destruct (get_is e "variant" "A" && get_is e "event_type" "impression"),
           (get_is e "variant" "A" && get_is e "event_type" "click"),
           (get_is e "variant" "B" && get_is e "event_type" "impression"),
           (get_is e "variant" "B" && get_is e "event_type" "click");
    cbn [length Nat.b2n] in *; lia.
Qed.

(** X10. The per-variant counts are counts of four classes of events that
    exclude one another, so together they never exceed the number of
    events (an event without variant or type, or with other values, is
    counted nowhere); they add up over the concatenation of two logs; and
    each rate is [calculate_ctr] of its two counts. *)
Theorem variant_performance_counts (events more : list (gmap string value)) :
  let p := calculate_variant_performance events in
  let q := calculate_variant_performance more in
  let both := calculate_variant_performance (events ++ more) in
  (impressions (variant_a p) + clicks (variant_a p) +
   impressions (variant_b p) + clicks (variant_b p) <= length events)%nat /\
  impressions (variant_a both) = (impressions (variant_a p) + impressions (variant_a q))%nat /\
  clicks (variant_a both) = (clicks (variant_a p) + clicks (variant_a q))%nat /\
  impressions (variant_b both) = (impressions (variant_b p) + impressions (variant_b q))%nat /\
  clicks (variant_b both) = (clicks (variant_b p) + clicks (variant_b q))%nat /\
  ctr (variant_a p) =
    calculate_ctr (Z.of_nat (impressions (variant_a p))) (Z.of_nat (clicks (variant_a p))) /\
  ctr (variant_b p) =
    calculate_ctr (Z.of_nat (impressions (variant_b p))) (Z.of_nat (clicks (variant_b p))).
Proof.
  cbv zeta. unfold calculate_variant_performance.
  cbn [variant_a variant_b impressions clicks ctr].
  rewrite !count_events_app.
  split; [apply count_events_disjoint|]. repeat split.
Qed.

End Metrics.


(** * Facts about the matcher *)

Section Matcher.
Import Re.

Lemma append_assoc (a b c : string) :
  String.append (String.append a b) c = String.append a (String.append b c).
Proof.
  induction a as [|x a IH]; [reflexivity|]. rewrite !append_cons, IH. reflexivity.
Qed.

Lemma length_append (a b : string) :
  String.length (String.append a b) = (String.length a + String.length b)%nat.
Proof.
  induction a as [|x a IH]; [reflexivity|].
  rewrite append_cons. cbn [String.length]. rewrite IH. reflexivity.
Qed.

Lemma take_append (a b : string) : Str.take (String.length a) (String.append a b) = a.
Proof.
  induction a as [|x a IH]; [destruct b; reflexivity|].
  rewrite append_cons. cbn [String.length Str.take]. rewrite IH. reflexivity.
Qed.

Lemma matched_text (pre rest : string) :
  Str.take (String.length (String.append pre rest) - String.length rest)
           (String.append pre rest) = pre.
Proof.
  rewrite length_append.
  replace (String.length pre + String.length rest - String.length rest)%nat
    with (String.length pre) by lia.
  apply take_append.
Qed.

(** A greedy repetition hands to its continuation the text that is left
    after some characters that all match the atom. *)
Lemma star_inv (a : atom) (prev : option ascii) (s : string)
    (k : option ascii -> string -> option answer) (ans : answer) :
  star a prev s k = Some ans ->
  exists pre rest p',
    s = String.append pre rest /\
    Reference.all_chars (atom_matches a) pre = true /\
    k p' rest = Some ans.
Proof.
  revert prev. induction s as [|c s IH]; intros prev; cbn [star].
  - intros H. exists EmptyString, EmptyString, prev. repeat split. exact H.
  - destruct (atom_matches a c) eqn:Hc.
    + destruct (star a (Some c) s k) as [r|] eqn:Hstar.
      * intros [= ->]. destruct (IH _ Hstar) as (pre & rest & p' & -> & Hall & Hk).
        exists (String c pre), rest, p'. repeat split; [|exact Hk].
        cbn [Reference.all_chars]. rewrite Hc, Hall. reflexivity.
      * intros H. exists EmptyString, (String c s), prev. repeat split. exact H.
    + intros H. exists EmptyString, (String c s), prev. repeat split. exact H.
Qed.

(** Every success of [run] is a success of its continuation, and a pattern
    without group passes on the capture it was given. *)
Lemma run_inv (r : regex) :
  forall (prev : option ascii) (s cap : string)
         (k : option ascii -> string -> string -> option answer) (ans : answer),
    run r prev s cap k = Some ans ->
    exists p' s' cap',
      k p' s' cap' = Some ans /\ (has_group r = false -> cap' = cap).
Proof.
  induction r as [|a|a|a|r IH|r1 IH1 r2 IH2|r IH|]; intros prev s cap k ans;
    cbn [run has_group].
  - intros H. exists prev, s, cap. split; [exact H | reflexivity].
  - destruct s as [|c s]; [discriminate|]. destruct (atom_matches a c); [|discriminate].
    intros H. exists (Some c), s, cap. split; [exact H | reflexivity].
  - intros H. apply star_inv in H. destruct H as (pre & rest & p' & _ & _ & Hk).
    exists p', rest, cap. split; [exact Hk | reflexivity].
  - destruct s as [|c s]; [discriminate|]. destruct (atom_matches a c); [|discriminate].
    intros H. apply star_inv in H. destruct H as (pre & rest & p' & _ & _ & Hk).
    exists p', rest, cap. split; [exact Hk | reflexivity].
  - destruct (run r prev s cap k) as [x|] eqn:Hrun.
    + intros [= ->]. apply (IH _ _ _ _ _ Hrun).
    + intros H. exists prev, s, cap. split; [exact H | reflexivity].
  - intros H. apply IH1 in H. destruct H as (p1 & s1 & cap1 & H & Hcap1).
    apply IH2 in H. destruct H as (p2 & s2 & cap2 & H & Hcap2).
    exists p2, s2, cap2. split; [exact H|].
    intros Hg. apply orb_false_iff in Hg. destruct Hg as [Hg1 Hg2].
    rewrite (Hcap2 Hg2). apply Hcap1, Hg1.
  - intros H. apply IH in H. destruct H as (p' & s' & cap' & H & _).
    eexists _, _, _. split; [exact H | discriminate].
  - destruct (xorb _ _); [|discriminate].
    intros H. exists prev, s, cap. split; [exact H | reflexivity].
Qed.

(** What holds of every reported match holds of all that [findall] lists. *)
Lemma findall_from_Forall (P : string -> Prop) (r : regex) :
  (forall prev s t n, match_here r prev s = Some (t, n) -> P t) ->
  forall s prev skip, Forall P (findall_from r prev s skip).
Proof.
  intros Hmatch. induction s as [|c s IH]; intros prev skip; cbn [findall_from].
  - destruct skip; [|constructor].
    destruct (match_here r prev EmptyString) as [[t n]|] eqn:Hm; [|constructor].
    constructor; [eapply Hmatch; exact Hm | constructor].
  - destruct skip as [|skip]; [|apply IH].
    destruct (match_here r prev (String c s)) as [[t n]|] eqn:Hm; [|apply IH].
    constructor; [eapply Hmatch; exact Hm | apply IH].
Qed.

Lemma captures_seq_l (P : string -> bool) (r1 r2 : regex) :
  has_group r1 = false -> Reference.captures P r2 -> Reference.captures P (Seq r1 r2).
Proof.
  intros _ H2 prev s cap k ans Hrun. cbn [run] in Hrun.
  apply run_inv in Hrun. destruct Hrun as (p1 & s1 & cap1 & Hrun & _).
  apply (H2 _ _ _ _ _ Hrun).
Qed.

Lemma captures_seq_r (P : string -> bool) (r1 r2 : regex) :
  Reference.captures P r1 -> has_group r2 = false -> Reference.captures P (Seq r1 r2).
Proof.
  intros H1 Hg prev s cap k ans Hrun. cbn [run] in Hrun.
  apply H1 in Hrun. destruct Hrun as (p1 & s1 & t & Ht & Hrun).
  apply run_inv in Hrun. destruct Hrun as (p2 & s2 & cap2 & Hk & Hcap).
  rewrite (Hcap Hg) in Hk. exists p2, s2, t. split; assumption.
Qed.

(** With a group in the pattern, the text [findall] reports for a match is
    the captured one. *)
Lemma match_here_captures (P : string -> bool) (r : regex) :
  has_group r = true -> Reference.captures P r ->
  forall prev s t n, match_here r prev s = Some (t, n) -> P t = true.
Proof.
  intros Hg Hcap prev s t n. unfold match_here. rewrite Hg.
  destruct (run r prev s EmptyString (fun _ rest cap => Some (cap, rest)))
    as [[cap rest]|] eqn:Hrun; [|discriminate].
  intros [= <- _]. apply Hcap in Hrun.
  destruct Hrun as (p' & s' & t' & Ht & [= <- _]). exact Ht.
Qed.

End Matcher.

(** * Further properties of the query interpreter *)

Section Years.
Import Re QueryParser.

Lemma captures_year4 : Reference.captures Reference.four_digits year4.
Proof.
  intros prev s cap k ans. unfold year4. cbn [seq run].
  destruct s as [|c1 [|c2 [|c3 [|c4 s4]]]]; try discriminate;
    try (destruct (atom_matches Digit c1); discriminate);
    try (destruct (atom_matches Digit c1), (atom_matches Digit c2); discriminate);
    try (destruct (atom_matches Digit c1), (atom_matches Digit c2),
                  (atom_matches Digit c3); discriminate).
  destruct (atom_matches Digit c1) eqn:H1; [|discriminate].
  destruct (atom_matches Digit c2) eqn:H2; [|discriminate].
  destruct (atom_matches Digit c3) eqn:H3; [|discriminate].
  destruct (atom_matches Digit c4) eqn:H4; [|discriminate].
  intros Hk.
  change (String c1 (String c2 (String c3 (String c4 s4))))
    with (String.append (String c1 (String c2 (String c3 (String c4 EmptyString)))) s4)
    in Hk.
  rewrite matched_text in Hk.
  eexists _, _, _. split; [|exact Hk].
  unfold Reference.four_digits. cbn [String.length Nat.eqb Reference.all_chars andb].
  cbn [atom_matches] in H1, H2, H3, H4. rewrite H1, H2, H3, H4. reflexivity.
Qed.

Lemma year_patterns_capture :
  Forall (fun p => has_group (compiled p) = true /\
                   Reference.captures Reference.four_digits (compiled p))
         year_patterns.
Proof.
  unfold year_patterns.
  repeat (apply List.Forall_cons; [split; [reflexivity|] |]); try apply List.Forall_nil;
    cbn [compiled seq];
    first [ exact captures_year4
          | apply captures_seq_r; [exact captures_year4 | reflexivity]
          | apply captures_seq_l; [reflexivity|];
            apply captures_seq_l; [reflexivity | exact captures_year4] ].
Qed.

Lemma year_matches_four_digits (p : pattern) (query : string) :
  In p year_patterns ->
  Forall (fun t => Reference.four_digits t = true) (findall (compiled p) query).
Proof.
  intros Hin.
  destruct (proj1 (List.Forall_forall _ _) year_patterns_capture p Hin) as [Hg Hcap].
  apply findall_from_Forall. apply (match_here_captures _ _ Hg Hcap).
Qed.

Lemma digits_no_s (t : string) :
  Reference.all_chars Str.is_digit t = true -> Str.contains "s" t = false.
Proof.
  induction t as [|c t IH]; [reflexivity|].
  cbn [Reference.all_chars]. intros H. apply andb_true_iff in H. destruct H as [Hc Ht].
  rewrite contains_cons, (IH Ht), orb_false_r, prefix_cons.
  destruct (ascii_dec "s" c) as [<-|]; [discriminate Hc | reflexivity].
Qed.

Lemma four_digits_no_s (t : string) :
  Reference.four_digits t = true -> Str.contains "s" t = false.
Proof.
  unfold Reference.four_digits. intros H. apply andb_true_iff in H.
  apply digits_no_s, H.
Qed.

Lemma digit_value_range (c : ascii) :
  Str.is_digit c = true -> (0 <= Num.digit_value c <= 9)%Z.
Proof.
  unfold Str.is_digit, Str.between, Num.digit_value. intros H.
  apply andb_true_iff in H. destruct H as [Hlo Hhi].
  apply Nat.leb_le in Hlo, Hhi. lia.
Qed.

Lemma four_digits_range (t : string) :
  Reference.four_digits t = true -> (0 <= Num.int_of_string t <= 9999)%Z.
Proof.
  unfold Reference.four_digits. intros H. apply andb_true_iff in H.
  destruct H as [Hlen Hall]. apply Nat.eqb_eq in Hlen.
  destruct t as [|c1 [|c2 [|c3 [|c4 [|c5 t]]]]]; try discriminate Hlen.
  cbn [Reference.all_chars] in Hall.
  repeat (apply andb_true_iff in Hall; destruct Hall as [?Hc Hall]).
  apply digit_value_range in Hc, Hc0, Hc1, Hc2.
  unfold Num.int_of_string. cbn [Num.digits_from]. lia.
Qed.

Lemma year_update_directed (query : string) (found : option string) (t : string) :
  Str.contains "s" t = false ->
  year_update query (Reference.year_directed query found) t =
  Reference.year_directed query (Some t).
Proof.
  intros Hs. unfold year_update, Reference.year_directed. rewrite Hs. cbn [orb].
  destruct (Str.contains "1990s" query); [reflexivity|].
  destruct (Str.contains_any ["from"; "after"; "since"] query);
    [destruct found; reflexivity|].
  destruct (Str.contains_any ["before"; "until"] query); destruct found; reflexivity.
Qed.

Lemma year_matches_directed (query : string) (ts : list string) (found : option string) :
  Forall (fun t => Reference.four_digits t = true) ts ->
  fold_left (year_update query) ts (Reference.year_directed query found) =
  Reference.year_directed query (fold_left (fun _ t => Some t) ts found).
Proof.
  intros Hts. revert found. induction Hts as [|t ts Ht _ IH]; intros found; [reflexivity|].
  cbn [fold_left]. rewrite year_update_directed by (apply four_digits_no_s, Ht). apply IH.
Qed.

Lemma year_loop_directed (query : string) (ps : list pattern) (found : option string) :
  Forall (fun p => In p year_patterns) ps ->
  fold_left (fun bounds p =>
               fold_left (year_update query) (findall (compiled p) query) bounds)
            ps (Reference.year_directed query found) =
  Reference.year_directed query
    (fold_left (fun found p =>
                  fold_left (fun _ t => Some t) (findall (compiled p) query) found)
               ps found).
Proof.
  intros Hps. revert found. induction Hps as [|p ps Hp _ IH]; intros found; [reflexivity|].
  cbn [fold_left]. rewrite year_matches_directed by (apply year_matches_four_digits, Hp).
  apply IH.
Qed.

Lemma last_match_four_digits (query : string) (ps : list pattern) (found : option string) :
  Forall (fun p => In p year_patterns) ps ->
  match found with Some t => Reference.four_digits t = true | None => True end ->
  match fold_left (fun found p =>
                     fold_left (fun _ t => Some t) (findall (compiled p) query) found)
                  ps found with
  | Some t => Reference.four_digits t = true
  | None => True
  end.
Proof.
  intros Hps. revert found. induction Hps as [|p ps Hp _ IH]; intros found Hfound;
    [exact Hfound|].
  cbn [fold_left]. apply IH.
  pose proof (year_matches_four_digits p query Hp) as Hts.
  revert found Hfound. induction Hts as [|t ts Ht _ IHts]; intros found Hfound;
    [exact Hfound|].
  cbn [fold_left]. apply IHts. exact Ht.
Qed.

(** X11. Year extraction, for every query. Each match of each year pattern
    is four decimal digits, so the test ['s' in match] never holds and the
    year is between 0 and 9999. The bounds are those of the last match of
    the last pattern that matches, placed by the words of the query
    alone: both bounds, a decade apart, exactly when the query holds the
    text 1990s; else the minimum only with from, after or since; else the
    maximum only with before or until; else both bounds, equal. *)
Theorem extract_year_directed (query : string) :
  _extract_year query =
    Reference.year_directed query (Reference.last_year_match query) /\
  Forall (fun p => Forall (fun t => Reference.four_digits t = true /\
                                    Str.contains "s" t = false)
                          (findall (compiled p) query))
         year_patterns /\
  match Reference.last_year_match query with
  | Some t => (0 <= Num.int_of_string t <= 9999)%Z
  | None => True
  end.
Proof.
  assert (Hall : Forall (fun p : pattern => In p year_patterns) year_patterns)
    by (apply List.Forall_forall; trivial).
  split; [|split].
  - unfold _extract_year, Reference.last_year_match.
    apply (year_loop_directed query year_patterns None Hall).
  - apply List.Forall_forall. intros p Hp.
    eapply Forall_impl; [apply year_matches_four_digits, Hp|].
    intros t Ht. split; [exact Ht | apply four_digits_no_s, Ht].
  - pose proof (last_match_four_digits query year_patterns None Hall I) as H.
    unfold Reference.last_year_match.
    destruct (fold_left _ year_patterns None); [apply four_digits_range, H | exact I].
Qed.

End Years.

Section Keywords.
Import Re QueryParser.

Lemma all_chars_append (p : ascii -> bool) (a b : string) :
  Reference.all_chars p (String.append a b) =
  Reference.all_chars p a && Reference.all_chars p b.
Proof.
  induction a as [|c a IH]; [reflexivity|].
  rewrite append_cons. cbn [Reference.all_chars]. rewrite IH, andb_assoc. reflexivity.
Qed.

Lemma lower_no_upper (s : string) :
  Reference.all_chars (fun c => negb (Str.is_upper c)) (Str.lower s) = true.
Proof.
  induction s as [|c s IH]; [reflexivity|].
  cbn [Str.lower Reference.all_chars]. rewrite IH, andb_true_r.
  destruct c as [[] [] [] [] [] [] [] []]; vm_compute; reflexivity.
Qed.

Lemma lower_fixed (s : string) :
  Reference.all_chars (fun c => negb (Str.is_upper c)) s = true -> Str.lower s = s.
Proof.
  induction s as [|c s IH]; [reflexivity|].
  cbn [Reference.all_chars Str.lower]. intros H. apply andb_true_iff in H.
  destruct H as [Hc Hs]. rewrite (IH Hs). unfold Str.lower_char.
  destruct (Str.is_upper c); [discriminate Hc | reflexivity].
Qed.

Lemma substring_lower_fixed (t s : string) :
  Reference.substring t (Str.lower s) -> Str.lower t = t.
Proof.
  intros (before & after & Heq). apply lower_fixed.
  pose proof (lower_no_upper s) as H. rewrite Heq, !all_chars_append in H.
  apply andb_true_iff in H. destruct H as [_ H].
  apply andb_true_iff in H. apply H.
Qed.

(** A match of the word pattern is a run of word characters with at least
    one character, standing at the head of the text. *)
Lemma match_here_word (prev : option ascii) (s t : string) (n : nat) :
  match_here word_pattern prev s = Some (t, n) ->
  Reference.all_chars Str.is_word t = true /\ t <> EmptyString /\
  exists after, s = String.append t after.
Proof.
  unfold match_here, word_pattern. cbn [seq has_group orb run].
  destruct (xorb (is_word_opt prev) (is_word_opt (next_char s))); [|discriminate].
  destruct s as [|c s1]; [discriminate|].
  destruct (atom_matches Word c) eqn:Hc; [|discriminate].
  destruct (star Word (Some c) s1 _) as [[cap rest]|] eqn:Hstar; [|discriminate].
  intros [= <- _]. apply star_inv in Hstar.
  destruct Hstar as (pre & rest' & p' & -> & Hall & Hk).
  destruct (xorb _ _); [|discriminate]. injection Hk as _ <-.
  assert (Ht : Str.take (S (String.length (String.append pre rest')) - String.length rest')
                        (String c (String.append pre rest')) = String c pre)
    by exact (matched_text (String c pre) rest').
  rewrite Ht. split; [|split].
  - change (Reference.all_chars Str.is_word pre = true) in Hall.
    change (Str.is_word c = true) in Hc.
    cbn [Reference.all_chars]. rewrite Hc, Hall. reflexivity.
  - discriminate.
  - exists rest'. reflexivity.
Qed.

(** What [findall] lists occurs in the text, when each match stands at the
    head of the text it is tried on. *)
Lemma findall_from_substring (r : regex) :
  (forall prev s t n, match_here r prev s = Some (t, n) ->
                      exists after, s = String.append t after) ->
  forall s prev skip,
    Forall (fun t => Reference.substring t s) (findall_from r prev s skip).
Proof.
  intros Hmatch.
  assert (Hhead : forall prev s t n, match_here r prev s = Some (t, n) ->
                                     Reference.substring t s).
  { intros prev s t n Hm. destruct (Hmatch _ _ _ _ Hm) as [after ->].
    exists EmptyString, after. reflexivity. }
  induction s as [|c s IH]; intros prev skip; cbn [findall_from].
  - destruct skip; [|constructor].
    destruct (match_here r prev EmptyString) as [[t n]|] eqn:Hm; [|constructor].
    constructor; [eapply Hhead; exact Hm | constructor].
  - assert (Htail : forall p k, Forall (fun t => Reference.substring t (String c s))
                                       (findall_from r p s k)).
    { intros p k. eapply Forall_impl; [apply IH|].
      intros t (before & after & ->). exists (String c before), after. reflexivity. }
    destruct skip as [|skip]; [|apply Htail].
    destruct (match_here r prev (String c s)) as [[t n]|] eqn:Hm; [|apply Htail].
    constructor; [eapply Hhead; exact Hm | apply Htail].
Qed.

(** X12. Every keyword the interpreter extracts is a run of letters,
    digits and underscores of at least three characters, is not a stop
    word, occurs in the lowercased query, and holds no uppercase
    letter. *)
Theorem extract_keywords_invariant (query : string) :
  Forall (fun word =>
            Reference.all_chars Str.is_word word = true /\
            (2 < String.length word)%nat /\
            (word ∉ stop_words) /\
            Reference.substring word (Str.lower query) /\
            Str.lower word = word)
         (_extract_keywords query).
Proof.
  unfold _extract_keywords. cbv zeta.
  pose proof (findall_from_Forall
                (fun t => Reference.all_chars Str.is_word t = true) word_pattern
                (fun prev s t n Hm => proj1 (match_here_word prev s t n Hm))
                (Str.lower query) None 0%nat) as Hword.
  pose proof (findall_from_substring word_pattern
                (fun prev s t n Hm => proj2 (proj2 (match_here_word prev s t n Hm)))
                (Str.lower query) None 0%nat) as Hsub.
  fold (findall word_pattern (Str.lower query)) in Hword, Hsub.
  apply List.Forall_forall. intros word Hin. apply filter_In in Hin.
  destruct Hin as [Hin Hkeep]. apply andb_true_iff in Hkeep.
  destruct Hkeep as [Hstop Hlen].
  pose proof (proj1 (List.Forall_forall _ _) Hword word Hin) as Hw.
  pose proof (proj1 (List.Forall_forall _ _) Hsub word Hin) as Hs.
  repeat split.
  - exact Hw.
  - apply Nat.ltb_lt in Hlen. exact Hlen.
  - apply bool_decide_eq_true in Hstop. exact Hstop.
  - exact Hs.
  - eapply substring_lower_fixed. exact Hs.
Qed.

End Keywords.

Section Names.
Import QueryParser MetadataMapper.

Lemma lower_upper_char (c : ascii) : Str.lower_char (Str.upper_char c) = Str.lower_char c.
Proof. destruct c as [[] [] [] [] [] [] [] []]; vm_compute; reflexivity. Qed.

Lemma lower_title_from (cased : bool) (s : string) :
  Str.lower (Str.title_from cased s) = Str.lower s.
Proof.
  revert cased. induction s as [|c s IH]; intros cased; [reflexivity|].
  cbn [Str.title_from Str.lower]. rewrite IH.
  destruct cased; [rewrite lower_char_idem | rewrite lower_upper_char]; reflexivity.
Qed.

Lemma triggered_lower (table : list (string * list string)) (query : string) :
  Forall (fun entry => Str.lower (fst entry) = fst entry) table ->
  map Str.lower (triggered table query) =
  map fst (List.filter (fun entry => existsb (fun term => Str.contains term query)
                                             (snd entry))
                       table).
Proof.
  induction 1 as [|[name terms] table Hname _ IH]; [reflexivity|].
  cbn [triggered flat_map List.filter snd fst] in *.
  destruct (existsb _ terms).
  - cbn [app map fst]. fold (triggered table query). rewrite IH.
    unfold Str.title. rewrite lower_title_from, Hname. reflexivity.
  - cbn [app]. fold (triggered table query). exact IH.
Qed.

Lemma actor_keys_lower :
  Forall (fun entry => Str.lower (fst entry) = fst entry) actor_mapping.
Proof.
  apply List.Forall_forall. intros entry Hin. unfold actor_mapping in Hin.
  cbn [In] in Hin.
  repeat (destruct Hin as [<- | Hin]; [vm_compute; reflexivity|]).
  contradiction.
Qed.

Lemma parse_query_actors (query : string) (query_type : QueryType) :
  actors (parse_query query query_type) =
  _extract_actors (Str.strip (Str.lower query)).
Proof.
  unfold parse_query.
  destruct (_extract_runtime _), (_extract_year _). reflexivity.
Qed.

(** X13. Normalisation undoes the title-casing of the interpreter: the
    normalised actors of a query are the keys of the actor table, as they
    are written there, one of whose variants occurs in the lowercased and
    stripped query, in table order. *)
Theorem normalized_actors_are_keys (query : string) (query_type : QueryType) :
  norm_actors (normalize_filters (parse_query query query_type)) =
    map fst (List.filter
               (fun entry =>
                  existsb (fun variation =>
                             Str.contains variation (Str.strip (Str.lower query)))
                          (snd entry))
               actor_mapping).
Proof.
  unfold normalize_filters. cbn [norm_actors]. rewrite parse_query_actors.
  apply triggered_lower, actor_keys_lower.
Qed.

Lemma contains_within (term inner outer : string) :
  Reference.substring inner outer ->
  Str.contains term inner = true -> Str.contains term outer = true.
Proof.
  intros (b & a & ->) Hterm. apply contains_spec in Hterm.
  destruct Hterm as (b' & a' & ->). apply contains_spec.
  exists (String.append b b'), (String.append a' a).
  rewrite !append_assoc. reflexivity.
Qed.

Lemma existsb_impl {A : Type} (p q : A -> bool) (l : list A) :
  (forall x, p x = true -> q x = true) -> existsb p l = true -> existsb q l = true.
Proof.
  intros Hpq. induction l as [|x l IH]; [discriminate|]. cbn [existsb].
  rewrite !orb_true_iff. intros [H | H]; [left; apply Hpq, H | right; apply IH, H].
Qed.

Lemma triggered_within (table : list (string * list string)) (inner outer : string) :
  Reference.substring inner outer ->
  triggered table inner `sublist_of` triggered table outer.
Proof.
  intros Hsub. induction table as [|[name terms] table IH]; [constructor|].
  cbn [triggered flat_map]. fold (triggered table inner). fold (triggered table outer).
  destruct (existsb (fun term => Str.contains term inner) terms) eqn:Hin.
  - rewrite (existsb_impl _ (fun term => Str.contains term outer) _
               (fun term => contains_within term inner outer Hsub) Hin).
    cbn [app]. apply sublist_skip, IH.
  - destruct (existsb (fun term => Str.contains term outer) terms); cbn [app];
      [apply sublist_cons|]; exact IH.
Qed.

(** X14. Adding text around a query never removes a genre or an actor:
    when one text occurs within another, the genres and the actors
    extracted from the first are among those extracted from the second,
    in the same order. *)
Theorem extraction_grows_with_query (inner outer : string) :
  Reference.substring inner outer ->
  _extract_genres inner `sublist_of` _extract_genres outer /\
  _extract_actors inner `sublist_of` _extract_actors outer.
Proof.
  intros Hsub. split; apply triggered_within; exact Hsub.
Qed.

Lemma extraction_grows_with_query_witness :
  _extract_genres "funny" `sublist_of` _extract_genres "a funny thriller with tom hanks" /\
  _extract_actors "funny" `sublist_of` _extract_actors "a funny thriller with tom hanks".
Proof.
  apply (extraction_grows_with_query "funny" "a funny thriller with tom hanks").
  exists "a ", " thriller with tom hanks". reflexivity.
Defined.

End Names.

Section Moods.
Import QueryParser.

Lemma triggered_In (table : list (string * list string)) (query name : string) :
  In name (triggered table query) ->
  exists key terms,
    In (key, terms) table /\ name = Str.title key /\
    existsb (fun term => Str.contains term query) terms = true.
Proof.
  induction table as [|[key terms] table IH]; [contradiction|].
  cbn [triggered flat_map]. fold (triggered table query).
  intros Hin. apply in_app_or in Hin. destruct Hin as [Hin | Hin].
  - destruct (existsb (fun term => Str.contains term query) terms) eqn:Hex;
      [|contradiction].
    destruct Hin as [<- | []]. exists key, terms.
    split; [left; reflexivity | split; [reflexivity | exact Hex]].
  - destruct (IH Hin) as (k & t & Hk & Hname & Hex).
    exists k, t. split; [right; exact Hk | split; assumption].
Qed.

Lemma first_vibe_key (table : list (string * list string)) (query mood : string) :
  first_vibe table query = Some mood -> In mood (map fst table).
Proof.
  induction table as [|[key terms] table IH]; [discriminate|].
  cbn [first_vibe map fst].
  destruct (existsb _ terms); [intros [= <-]; left; reflexivity | right; apply IH; assumption].
Qed.

Lemma parse_query_vibe (query : string) (query_type : QueryType) :
  vibe (parse_query query query_type) = _extract_vibe (Str.strip (Str.lower query)).
Proof.
  unfold parse_query.
  destruct (_extract_runtime _), (_extract_year _). reflexivity.
Qed.

(** X15. A query from which the interpreter extracts the genre Comedy
    always gets the mood [funny]: each term that triggers the genre
    holds a term of that mood, which is the first of the mood table. *)
Theorem comedy_is_funny (query : string) (query_type : QueryType) :
  In "Comedy" (genres (parse_query query query_type)) ->
  vibe (parse_query query query_type) = Some "funny".
Proof.
  rewrite parse_query_genres, parse_query_vibe.
  set (q := Str.strip (Str.lower query)). intros Hin.
  apply triggered_In in Hin. destruct Hin as (key & terms & Hentry & Htitle & Hex).
  assert (Hterms : terms = ["comedy"; "funny"; "humor"; "humorous"; "laugh"]).
  { unfold genre_mapping in Hentry. cbn [In] in Hentry.
    repeat (destruct Hentry as [[= <- <-] | Hentry];
            [first [reflexivity | vm_compute in Htitle; discriminate Htitle]|]).
    contradiction. }
  subst terms. cbn [existsb] in Hex.
  unfold _extract_vibe, vibe_keywords. cbn [first_vibe existsb].
  assert (Hhumor : Str.contains "humorous" q = true -> Str.contains "humor" q = true).
  { intros H. apply contains_spec in H. destruct H as (b & a & ->).
    apply contains_spec. exists b, (String.append "ous" a).
    reflexivity. }
  destruct (Str.contains "funny" q); [reflexivity|].
  destruct (Str.contains "comedy" q); [rewrite !orb_true_r; reflexivity|].
  destruct (Str.contains "laugh" q); [rewrite !orb_true_r; reflexivity|].
  destruct (Str.contains "humor" q) eqn:Hh; [rewrite !orb_true_r; reflexivity|].
  destruct (Str.contains "humorous" q); [specialize (Hhumor eq_refl); discriminate|].
  discriminate Hex.
Qed.

Lemma comedy_is_funny_witness :
  vibe (parse_query "Something humorous please" TEXT) = Some "funny".
Proof.
  apply (comedy_is_funny "Something humorous please" TEXT).
  vm_compute. left. reflexivity.
Defined.

(** X16. A mood the interpreter extracts is one of its eight mood tags, is
    not the empty text, and is a mood the ranking engine has keywords
    for: on the output of the interpreter the engine's guard
    [if filters.vibe] holds whenever a mood is set, and the branch of
    [_calculate_vibe_boost] for an unknown mood is not taken. *)
Theorem extracted_vibe_known (query : string) (query_type : QueryType) :
  match vibe (parse_query query query_type) with
  | Some mood =>
      In mood ["funny"; "serious"; "romantic"; "exciting"; "scary";
               "thought-provoking"; "light"; "dark"] /\
      mood <> EmptyString /\
      RecommendationEngine.lookup mood RecommendationEngine.vibe_keywords <> None
  | None => True
  end.
Proof.
  rewrite parse_query_vibe. unfold _extract_vibe.
  destruct (first_vibe vibe_keywords _) as [mood|] eqn:Hv; [|exact I].
  apply first_vibe_key in Hv. split; [exact Hv|].
  cbn [map fst vibe_keywords In] in Hv.
  repeat (destruct Hv as [<- | Hv]; [split; [discriminate | vm_compute; discriminate]|]).
  contradiction.
Qed.

End Moods.

Section NormalisedGenres.
Import MetadataMapper.

Lemma standard_of_key (name : string) (table : list (string * list string))
    (standard : string) :
  standard_of name table = Some standard -> In standard (map fst table).
Proof.
  induction table as [|[key variations] table IH]; [discriminate|].
  cbn [standard_of map fst].
  destruct (_ || _); [intros [= <-]; left; reflexivity | right; apply IH; assumption].
Qed.

Lemma normalized_list_keys (names : list string) :
  Forall (fun g => In g (map fst normalized_genres)) (normalized_list names).
Proof.
  apply List.Forall_forall. intros g Hin. unfold normalized_list in Hin.
  apply in_flat_map in Hin. destruct Hin as (name & _ & Hin).
  destruct (standard_of (Str.lower name) normalized_genres) as [standard|] eqn:Hs;
    [|contradiction].
  destruct Hin as [<- | []]. eapply standard_of_key. exact Hs.
Qed.

Lemma standard_keys_fixed :
  Forall (fun name => standard_of (Str.lower name) normalized_genres = Some name)
         (map fst normalized_genres).
Proof. exact canonical_genres_standard. Qed.

Lemma normalized_list_lower (names : list string) :
  normalized_list (map Str.lower names) = normalized_list names.
Proof.
  unfold normalized_list. induction names as [|name names IH]; [reflexivity|].
  cbn [map flat_map]. rewrite lower_idem, IH. reflexivity.
Qed.

(** X17. The normalised genres of any list of names are standard genres
    of the normaliser's table, none twice (names the table lacks are
    dropped); normalising is idempotent and does not depend on the case
    of the names, both up to the order of the result, which is that of a
    set and is not fixed. *)
Theorem normalize_genres_idempotent (names : list string) :
  NoDup (_normalize_genres names) /\
  Forall (fun g => In g (map fst normalized_genres)) (_normalize_genres names) /\
  _normalize_genres (_normalize_genres names) ≡ₚ _normalize_genres names /\
  _normalize_genres (map Str.lower names) ≡ₚ _normalize_genres names.
Proof.
  assert (Hkeys : Forall (fun g => In g (map fst normalized_genres))
                         (_normalize_genres names)).
  { apply List.Forall_forall. intros g Hin. unfold _normalize_genres in Hin.
    apply list_elem_of_In, elem_of_elements, elem_of_list_to_set, list_elem_of_In in Hin.
    apply (proj1 (List.Forall_forall _ _) (normalized_list_keys names) g Hin). }
  split; [unfold _normalize_genres; apply NoDup_elements|]. split; [exact Hkeys|]. split.
  - unfold _normalize_genres at 1.
    rewrite normalized_list_fixed.
    + unfold _normalize_genres. rewrite list_to_set_elements_L. reflexivity.
    + apply List.Forall_forall. intros g Hin.
      apply (proj1 (List.Forall_forall _ _) standard_keys_fixed g).
      apply (proj1 (List.Forall_forall _ _) Hkeys g Hin).
  - unfold _normalize_genres. rewrite normalized_list_lower. reflexivity.
Qed.

End NormalisedGenres.

Section Durations.
Import QueryParser.

Lemma digits_from_nonneg (s : string) (acc : Z) :
  (0 <= acc)%Z -> (0 <= Num.digits_from acc s)%Z.
Proof.
  revert acc. induction s as [|c s IH]; intros acc Hacc; [exact Hacc|].
  cbn [Num.digits_from]. apply IH. unfold Num.digit_value. lia.
Qed.

Lemma minutes_of_nonneg (p : pattern) (t : string) : (0 <= Reference.minutes_of p t)%Z.
Proof.
  unfold Reference.minutes_of, Num.int_of_float, Num.float_of_string. cbv zeta.
  destruct (Num.split_dot t) as [whole fraction].
  assert (Hn : (0 <= Num.int_of_string (String.append whole fraction))%Z)
    by (apply digits_from_nonneg; lia).
  destruct (_ || _); cbn [Qnum Qden Qmult]; apply Z.quot_pos; lia.
Qed.

Lemma last_value_nonneg (query : string) (ps : list pattern) (value : option Z) :
  match value with Some n => (0 <= n)%Z | None => True end ->
  match fold_left (fun value p =>
                     match Re.findall (compiled p) query with
                     | match_ :: _ => Some (Reference.minutes_of p match_)
                     | [] => value
                     end) ps value with
  | Some n => (0 <= n)%Z
  | None => True
  end.
Proof.
  revert value. induction ps as [|p ps IH]; intros value Hvalue; [exact Hvalue|].
  cbn [fold_left]. apply IH.
  destruct (Re.findall (compiled p) query); [exact Hvalue | apply minutes_of_nonneg].
Qed.

(** X18. The runtime bounds the interpreter extracts are never negative,
    for any query. *)
Theorem extract_runtime_nonnegative (query : string) :
  match fst (_extract_runtime query) with Some n => (0 <= n)%Z | None => True end /\
  match snd (_extract_runtime query) with Some n => (0 <= n)%Z | None => True end.
Proof.
  unfold _extract_runtime.
  change (@pair (option Z) (option Z) None None) with (Reference.directed query None).
  rewrite (runtime_loop_directed query runtime_patterns None).
  pose proof (last_value_nonneg query runtime_patterns None I) as H.
  destruct (fold_left _ runtime_patterns None) as [n|]; [|split; exact I].
  unfold Reference.directed.
  destruct (Str.contains_any ["short"; "under"; "less than"] query); [split; [exact I | exact H]|].
  destruct (Str.contains_any ["long"; "over"; "more than"] query); split;
    first [exact I | exact H].
Qed.

End Durations.

Section Suggestions.
Import VoiceProcessor.

Lemma filter_sublist {A : Type} (p : A -> bool) (l : list A) :
  List.filter p l `sublist_of` l.
Proof.
  induction l as [|x l IH]; cbn [List.filter]; [constructor|].
  destruct (p x); [apply sublist_skip | apply sublist_cons]; exact IH.
Qed.

(** X19. The voice suggestions are at most ten of the fourteen starters, in
    their order; for a partial query that is not empty each of them
    holds the lowercased partial query, and for the empty one they are
    the first five starters. *)
Theorem voice_suggestions_from_starters (partial_query : string) :
  (length (get_voice_suggestions partial_query) <= 10)%nat /\
  get_voice_suggestions partial_query `sublist_of` starters /\
  Forall (fun s => partial_query = EmptyString \/
                   Str.contains (Str.lower partial_query) (Str.lower s) = true)
         (get_voice_suggestions partial_query) /\
  get_voice_suggestions EmptyString = firstn 5 starters.
Proof.
  unfold get_voice_suggestions. cbv zeta.
  change (Py.slice_to 10) with (@firstn string 10).
  split; [apply firstn_le_length|]. split; [|split; [|reflexivity]].
  - etransitivity; [apply sublist_take|].
    destruct partial_query; [apply sublist_take | apply filter_sublist].
  - destruct partial_query as [|c rest].
    + apply List.Forall_forall. intros s _. left. reflexivity.
    + apply List.Forall_forall. intros s Hin. right.
      apply list_elem_of_In in Hin.
      assert (Hs : s ∈ List.filter
                         (fun s0 => Str.contains (Str.lower (String c rest)) (Str.lower s0))
                         starters)
        by exact (elem_of_sublist _ _ _ Hin (sublist_take _ _)).
      apply list_elem_of_In, filter_In in Hs. apply Hs.
Qed.

End Suggestions.


Section SimilarityRanking.
Import RecommendationEngine.



End SimilarityRanking.

Section QueryForms.
Import QueryParser.

Lemma is_space_lower (c : ascii) : Str.is_space (Str.lower_char c) = Str.is_space c.
Proof. destruct c as [[] [] [] [] [] [] [] []]; vm_compute; reflexivity. Qed.

Lemma lstrip_lower (s : string) : Str.lower (Str.lstrip s) = Str.lstrip (Str.lower s).
Proof.
  induction s as [|c s IH]; [reflexivity|].
  cbn [Str.lstrip Str.lower]. rewrite is_space_lower.
  destruct (Str.is_space c); [exact IH | reflexivity].
Qed.

Lemma rstrip_lower (s : string) : Str.lower (Str.rstrip s) = Str.rstrip (Str.lower s).
Proof.
  induction s as [|c s IH]; [reflexivity|].
  cbn [Str.rstrip Str.lower]. rewrite <- IH, is_space_lower.
  destruct (Str.rstrip s); cbn [Str.lower]; [destruct (Str.is_space c)|]; reflexivity.
Qed.

Lemma strip_lower (s : string) : Str.lower (Str.strip s) = Str.strip (Str.lower s).
Proof. unfold Str.strip. rewrite rstrip_lower, lstrip_lower. reflexivity. Qed.

Lemma lstrip_head (s : string) :
  match Str.lstrip s with
  | EmptyString => True
  | String c _ => Str.is_space c = false
  end.
Proof.
  induction s as [|c s IH]; [exact I|]. cbn [Str.lstrip].
  destruct (Str.is_space c) eqn:Hc; [exact IH | exact Hc].
Qed.

Lemma rstrip_idem (s : string) : Str.rstrip (Str.rstrip s) = Str.rstrip s.
Proof.
  induction s as [|c s IH]; [reflexivity|]. cbn [Str.rstrip].
  destruct (Str.rstrip s) as [|d t] eqn:Hr.
  - destruct (Str.is_space c) eqn:Hc; [reflexivity|].
    cbn [Str.rstrip]. rewrite Hc. reflexivity.
  - change (Str.rstrip (String c (String d t))) with
      (match Str.rstrip (String d t) with
       | EmptyString => if Str.is_space c then EmptyString else String c EmptyString
       | u => String c u
       end).
    rewrite IH. reflexivity.
Qed.

Lemma lstrip_rstrip_head (s : string) :
  match s with
  | EmptyString => True
  | String c _ => Str.is_space c = false
  end ->
  Str.lstrip (Str.rstrip s) = Str.rstrip s.
Proof.
  destruct s as [|c s]; [reflexivity|]. intros Hc. cbn [Str.rstrip].
  destruct (Str.rstrip s); [rewrite Hc|]; cbn [Str.lstrip]; rewrite Hc; reflexivity.
Qed.

Lemma strip_idem (s : string) : Str.strip (Str.strip s) = Str.strip s.
Proof.
  unfold Str.strip. rewrite (lstrip_rstrip_head _ (lstrip_head s)). apply rstrip_idem.
Qed.

(** X21. Parsing does not depend on blanks around the query, on whether
    the query was lowercased beforehand, or on the query type: the
    lowercased and the stripped query parse to the same filters as the
    query itself, whether as text or as voice. *)
Theorem parse_query_invariant (query : string) (type1 type2 : QueryType) :
  parse_query (Str.lower query) type1 = parse_query query type2 /\
  parse_query (Str.strip query) type1 = parse_query query type2.
Proof.
  unfold parse_query. rewrite lower_idem, strip_lower, strip_idem.
  split; reflexivity.
Qed.

End QueryForms.

(** * Matching up to case *)

Section UpToCase.
Import RecommendationEngine.

Lemma ascii_listed (c : ascii) : In c (map ascii_of_nat (seq 0 256)).
Proof.
  rewrite <- (ascii_nat_embedding c). apply in_map, in_seq.
  pose proof (nat_ascii_bounded c). lia.
Qed.

(** Lowercasing identifies exactly the characters that are the same up to
    case. *)
Lemma lower_char_same (c d : ascii) :
  Ascii.eqb (Str.lower_char c) (Str.lower_char d) = Reference.same_char_ci c d.
Proof.
  assert (Hall : forallb
            (fun c => forallb
               (fun d => Bool.eqb (Ascii.eqb (Str.lower_char c) (Str.lower_char d))
                                  (Reference.same_char_ci c d))
               (map ascii_of_nat (seq 0 256)))
            (map ascii_of_nat (seq 0 256)) = true) by (vm_compute; reflexivity).
  rewrite List.forallb_forall in Hall. specialize (Hall c (ascii_listed c)).
  rewrite List.forallb_forall in Hall. specialize (Hall d (ascii_listed d)).
  apply Bool.eqb_prop in Hall. exact Hall.
Qed.

Lemma lower_same (a b : string) :
  String.eqb (Str.lower a) (Str.lower b) = Reference.same_ci a b.
Proof.
  revert b. induction a as [|c a IH]; intros [|d b]; try reflexivity.
  cbn [Str.lower Reference.same_ci String.eqb]. rewrite lower_char_same, IH.
  destruct (Reference.same_char_ci c d); reflexivity.
Qed.

Lemma lower_same_iff (a b : string) :
  Str.lower a = Str.lower b <-> Reference.same_ci a b = true.
Proof. rewrite <- lower_same. symmetry. apply String.eqb_eq. Qed.

Lemma lower_append (a b : string) :
  Str.lower (String.append a b) = String.append (Str.lower a) (Str.lower b).
Proof.
  induction a as [|c a IH]; [reflexivity|].
  rewrite append_cons. cbn [Str.lower]. rewrite append_cons, IH. reflexivity.
Qed.

(** A text whose lowercased form is made of two parts is made of two
    parts with these lowercased forms. *)
Lemma lower_split (x y s : string) :
  Str.lower s = String.append x y ->
  exists s1 s2, s = String.append s1 s2 /\ Str.lower s1 = x /\ Str.lower s2 = y.
Proof.
  revert s. induction x as [|c x IH]; intros s H.
  - exists EmptyString, s. repeat split. exact H.
  - rewrite append_cons in H. destruct s as [|d s]; [discriminate|].
    cbn [Str.lower] in H. injection H as Hc Hs.
    destruct (IH _ Hs) as (s1 & s2 & -> & <- & <-).
    exists (String d s1), s2. rewrite append_cons. cbn [Str.lower]. rewrite Hc.
    repeat split.
Qed.

Lemma whole_name_spec (names tags : list string) :
  Reference.tag_ok names tags <-> Reference.whole_name_ok names tags.
Proof.
  unfold Reference.tag_ok, Reference.whole_name_ok. split.
  - intros [H | (name & Hin & Htag)]; [left; exact H | right].
    apply in_map_iff in Htag. destruct Htag as (tag & Heq & Htag).
    exists name, tag. repeat split; try assumption.
    apply lower_same_iff. symmetry. exact Heq.
  - intros [H | (name & tag & Hin & Htag & Hsame)]; [left; exact H | right].
    exists name. split; [exact Hin|].
    apply lower_same_iff in Hsame. rewrite Hsame. apply in_map. exact Htag.
Qed.

Lemma part_of_text_spec (keyword text : string) :
  Reference.substring (Str.lower keyword) (Str.lower text) <->
  exists before part after,
    text = String.append before (String.append part after) /\
    Reference.same_ci keyword part = true.
Proof.
  split.
  - intros (x & y & H). apply lower_split in H.
    destruct H as (s1 & s23 & -> & _ & H). apply lower_split in H.
    destruct H as (s2 & s3 & -> & H & _).
    exists s1, s2, s3. split; [reflexivity|].
    apply lower_same_iff. symmetry. exact H.
  - intros (before & part & after & -> & Hsame). apply lower_same_iff in Hsame.
    exists (Str.lower before), (Str.lower after).
    rewrite !lower_append, Hsame. reflexivity.
Qed.

Lemma passes_up_to_case_spec (filters : ParsedFilters) (m : Movie) :
  Reference.passes filters m <-> Reference.passes_up_to_case filters m.
Proof.
  unfold Reference.passes, Reference.passes_up_to_case, Reference.part_of_text_ok.
  rewrite !whole_name_spec.
  assert (Hk : (keywords filters = [] \/
                exists keyword, In keyword (keywords filters) /\
                  Reference.substring (Str.lower keyword) (Str.lower (overview m))) <->
               (keywords filters = [] \/
                exists keyword before part after,
                  In keyword (keywords filters) /\
                  overview m = String.append before (String.append part after) /\
                  Reference.same_ci keyword part = true)).
  { split.
    - intros [H | (keyword & Hin & Hsub)]; [left; exact H | right].
      apply part_of_text_spec in Hsub. destruct Hsub as (b & p & a & Heq & Hsame).
      exists keyword, b, p, a. repeat split; assumption.
    - intros [H | (keyword & b & p & a & Hin & Heq & Hsame)]; [left; exact H | right].
      exists keyword. split; [exact Hin|]. apply part_of_text_spec.
      exists b, p, a. split; assumption. }
  rewrite Hk. reflexivity.
Qed.

(** C7, the claim as worded. With the genre and cast test read as a
    substring test, a request for the genre [Dram] would retain the first
    movie of the sample, whose genres include [Drama], and a request for
    the actor [Hanks] would retain it for [Tom Hanks]; the code retains
    nothing for either. *)
Lemma filter_movies_part_counterexample :
  let e := Reference.sample_engine in
  let m := Reference.sample_first in
  In m (all_movies e) /\
  (_filter_movies e Reference.part_of_a_genre = [] /\
   Reference.passes_by_part Reference.part_of_a_genre m) /\
  (_filter_movies e Reference.part_of_a_name = [] /\
   Reference.passes_by_part Reference.part_of_a_name m) /\
  ~ (forall filters m,
       In m (_filter_movies e filters) <->
       In m (all_movies e) /\ Reference.passes_by_part filters m).
Proof.
  assert (Hin : In Reference.sample_first (all_movies Reference.sample_engine))
    by (left; reflexivity).
  assert (Hgenre : Reference.passes_by_part Reference.part_of_a_genre
                     Reference.sample_first).
  { unfold Reference.passes_by_part, Reference.part_of_tag_ok.
    split; [right; exists "Dram", "Drama"; split; [left; reflexivity|];
            split; [left; reflexivity|]; exists "", "a"; reflexivity|].
    split; [left; reflexivity|].
    repeat (split; [intros ? [=]|]). left. reflexivity. }
  assert (Hname : Reference.passes_by_part Reference.part_of_a_name
                    Reference.sample_first).
  { unfold Reference.passes_by_part, Reference.part_of_tag_ok.
    split; [left; reflexivity|].
    split; [right; exists "Hanks", "Tom Hanks"; split; [left; reflexivity|];
            split; [left; reflexivity|]; exists "tom ", ""; reflexivity|].
    repeat (split; [intros ? [=]|]). left. reflexivity. }
  cbv zeta. split; [exact Hin|].
  split; [split; [vm_compute; reflexivity | exact Hgenre]|].
  split; [split; [vm_compute; reflexivity | exact Hname]|].
  intros H.
  destruct (H Reference.part_of_a_genre Reference.sample_first) as [_ Hback].
  specialize (Hback (conj Hin Hgenre)).
  assert (Hempty : _filter_movies Reference.sample_engine Reference.part_of_a_genre = [])
    by (vm_compute; reflexivity).
  rewrite Hempty in Hback. destruct Hback.
Qed.

(** C7, amended. Candidate filtering is a conjunction over the present
    filter fields only: an item is retained iff, for every present field,
    one of its attributes matches. Genre and cast match by a
    case-insensitive test of whole names: a requested name, lowercased,
    is one of the item's tags, lowercased; a part of a tag does not
    match. Duration and year match by the bounds that are present,
    keywords by a case-insensitive substring test in the synopsis,
    satisfied if any keyword matches. For text of the 7-bit character set
    the two tests are worded without lowercasing: a requested name and a
    tag are the same up to the case of their letters, and a keyword is
    the same up to case as a part of the synopsis. Absent fields impose
    no constraint, and with no filters every item of the catalogue
    passes. *)
Theorem filter_movies_whole_names (e : engine) (filters : ParsedFilters) :
  _filter_movies e filters = List.filter (Reference.retained filters) (all_movies e) /\
  (forall m, In m (_filter_movies e filters) <->
             In m (all_movies e) /\ Reference.passes filters m) /\
  (forall m, Reference.ascii_filters filters = true ->
             Reference.ascii_movie m = true ->
             (In m (_filter_movies e filters) <->
              In m (all_movies e) /\ Reference.passes_up_to_case filters m)) /\
  _filter_movies e no_filters = all_movies e.
Proof.
  destruct (filter_movies_conjunction e filters) as (Hfilter & Hiff & Hnone).
  split; [exact Hfilter|]. split; [exact Hiff|]. split; [|exact Hnone].
  intros m _ _. rewrite Hiff, passes_up_to_case_spec. reflexivity.
Qed.

Lemma filter_movies_whole_names_witness :
  In Reference.sample_first
     (_filter_movies Reference.sample_engine Reference.genre_in_capitals) <->
  In Reference.sample_first (all_movies Reference.sample_engine) /\
  Reference.passes_up_to_case Reference.genre_in_capitals Reference.sample_first.
Proof.
  apply (filter_movies_whole_names Reference.sample_engine Reference.genre_in_capitals);
    reflexivity.
Defined.

End UpToCase.

(** * The popularity score *)

Section BoostedPopularity.
Import RecommendationEngine.
Local Open Scope Q_scope.

(** A loop that adds a bonus for each element that passes a test adds the
    bonus as many times as elements pass. *)
Lemma fold_bonus_count {A : Type} (test : A -> bool) (bonus : Q) (l : list A) (start : Q) :
  fold_left (fun boost x => if test x then boost + bonus else boost) l start ==
  start + bonus * inject_Z (Z.of_nat (length (List.filter test l))).
Proof.
  revert start. induction l as [|x l IH]; intros start.
  - cbn [fold_left List.filter length]. change (inject_Z (Z.of_nat 0)) with 0. ring.
  - cbn [fold_left List.filter]. rewrite IH. destruct (test x); [|reflexivity].
    rewrite length_cons, Nat2Z.inj_succ, <- Z.add_1_r, inject_Z_plus.
    change (inject_Z 1) with 1. ring.
Qed.

Lemma cap_at_one_min (x y : Q) : x == y -> cap_at_one x == Qmin 1 y.
Proof.
  intros Hxy. unfold cap_at_one. destruct (Qle_bool x 1) eqn:Hle.
  - apply Qle_bool_iff in Hle. rewrite Q.min_r; [exact Hxy | lra].
  - assert (Hnot : ~ x <= 1) by (intros H; apply Qle_bool_iff in H; congruence).
    rewrite Q.min_l; [reflexivity | lra].
Qed.

Lemma at_least_zero_max (x y : Q) : x == y -> at_least_zero x == Qmax 0 y.
Proof.
  intros Hxy. unfold at_least_zero. destruct (Qle_bool x 0) eqn:Hle.
  - apply Qle_bool_iff in Hle. rewrite Q.max_l; [reflexivity | lra].
  - assert (Hnot : ~ x <= 0) by (intros H; apply Qle_bool_iff in H; congruence).
    rewrite Q.max_r; [exact Hxy | lra].
Qed.

Lemma vibe_term_mood (movie : Movie) (filters : ParsedFilters) :
  vibe_term movie filters == Reference.mood_boost movie (vibe filters).
Proof.
  unfold vibe_term, Reference.mood_boost. destruct (vibe filters) as [[|c v]|].
  - reflexivity.
  - unfold _calculate_vibe_boost.
    destruct (lookup (String c v) vibe_keywords) as [triggers|]; [|reflexivity].
    cbv zeta. apply cap_at_one_min. rewrite !fold_bonus_count. ring.
  - reflexivity.
Qed.

Lemma hits_boost (names tags : list string) (score weight : Q) :
  (if Py.truthy names then score + hits names tags * weight else score) ==
  score + weight * Reference.satisfied names tags.
Proof.
  unfold hits, Reference.satisfied. destruct names as [|name names]; cbn [Py.truthy].
  - cbn [List.filter length]. change (inject_Z (Z.of_nat 0)) with 0. ring.
  - ring.
Qed.

Lemma closeness_midpoint (movie : Movie) (lo hi : Z) :
  at_least_zero (1 - Qabs (inject_Z (runtime movie) - inject_Z (lo + hi) / 2) / 60) ==
  Qmax 0 (1 - Qabs (inject_Z (runtime movie) - (inject_Z lo + inject_Z hi) / 2) / 60).
Proof. apply at_least_zero_max. rewrite inject_Z_plus. reflexivity. Qed.

Lemma set_and_nonzero_set (o : option Z) :
  Reference.is_zero_bound o = false -> set_and_nonzero o = o.
Proof. destruct o as [[| |]|]; [discriminate | reflexivity..]. Qed.

(** The score of the loop is popularity plus the boosts, for filters in
    which no duration bound is zero. *)
Lemma popularity_score_boosted (filters : ParsedFilters) (movie : Movie) :
  Reference.no_zero_bound filters = true ->
  popularity_score filters movie == Reference.boosted_popularity filters movie.
Proof.
  intros Hbounds. apply andb_true_iff in Hbounds. destruct Hbounds as [Hlo Hhi].
  apply negb_true_iff in Hlo, Hhi.
  unfold popularity_score, Reference.boosted_popularity, Reference.closeness_boost.
  cbv zeta. rewrite (set_and_nonzero_set _ Hlo), (set_and_nonzero_set _ Hhi).
  destruct (runtime_min filters) as [lo|], (runtime_max filters) as [hi|];
    rewrite ?closeness_midpoint, !hits_boost, vibe_term_mood; ring.
Qed.

Lemma Qle_bool_ext (a a' b b' : Q) : a == a' -> b == b' -> Qle_bool a b = Qle_bool a' b'.
Proof.
  intros Ha Hb. apply Bool.eq_true_iff_eq. rewrite !Qle_bool_iff, Ha, Hb. reflexivity.
Qed.

Lemma Qeq_bool_ext (a a' v : Q) : a == a' -> Qeq_bool a v = Qeq_bool a' v.
Proof.
  intros Ha. apply Bool.eq_true_iff_eq. rewrite !Qeq_bool_iff, Ha. reflexivity.
Qed.

Lemma sort_desc_ext {A : Type} (key1 key2 : A -> Q) (l : list A) :
  (forall x, key1 x == key2 x) -> Py.sort_desc key1 l = Py.sort_desc key2 l.
Proof.
  intros Hkey. induction l as [|x l IH]; [reflexivity|].
  rewrite !sort_desc_cons, IH. generalize (Py.sort_desc key2 l). intros k.
  induction k as [|y k IHk]; [reflexivity|]. cbn [Py.insert_desc].
  rewrite (Qle_bool_ext _ _ _ _ (Hkey y) (Hkey x)), IHk. reflexivity.
Qed.

Lemma sorted_ext {A : Type} (key1 key2 : A -> Q) (l : list A) :
  (forall x, key1 x == key2 x) ->
  StronglySorted (Reference.before key1) l -> StronglySorted (Reference.before key2) l.
Proof.
  intros Hkey Hsorted. induction Hsorted as [|x l _ IH Hall]; constructor; [exact IH|].
  eapply Forall_impl; [exact Hall|]. unfold Reference.before. intros y Hy.
  rewrite <- !Hkey. exact Hy.
Qed.

Lemma tied_ext {A : Type} (key1 key2 : A -> Q) (v : Q) (l : list A) :
  (forall x, key1 x == key2 x) -> Reference.tied key1 v l = Reference.tied key2 v l.
Proof.
  intros Hkey. unfold Reference.tied. induction l as [|x l IH]; [reflexivity|].
  cbn [List.filter]. rewrite (Qeq_bool_ext _ _ v (Hkey x)), IH. reflexivity.
Qed.




End BoostedPopularity.

(** * Queries without a word *)

Section WithoutWords.
Import Re QueryParser.

Local Abbreviation no_word := (fun c : ascii => negb (Str.is_word c)).

Lemma without_words_no_word (s : string) :
  Reference.without_words s = true -> Reference.all_chars no_word s = true.
Proof.
  unfold Reference.without_words. induction s as [|c s IH]; [reflexivity|].
  cbn [Reference.all_chars]. intros H.
  apply andb_true_iff in H. destruct H as [Hc Hs].
  apply andb_true_iff in Hc. destruct Hc as [_ Hc].
  apply andb_true_iff. split; [exact Hc | exact (IH Hs)].
Qed.

Lemma is_word_lower (c : ascii) : Str.is_word (Str.lower_char c) = Str.is_word c.
Proof. destruct c as [[] [] [] [] [] [] [] []]; reflexivity. Qed.

Lemma no_word_lower (s : string) :
  Reference.all_chars no_word (Str.lower s) = Reference.all_chars no_word s.
Proof.
  induction s as [|c s IH]; [reflexivity|].
  cbn [Str.lower Reference.all_chars]. rewrite is_word_lower, IH. reflexivity.
Qed.

Lemma no_word_lstrip (s : string) :
  Reference.all_chars no_word s = true ->
  Reference.all_chars no_word (Str.lstrip s) = true.
Proof.
  induction s as [|c s IH]; [reflexivity|]. cbn [Str.lstrip].
  destruct (Str.is_space c); [|intros H; exact H].
  cbn [Reference.all_chars]. intros H. apply andb_true_iff in H. apply IH, H.
Qed.

Lemma no_word_rstrip (s : string) :
  Reference.all_chars no_word s = true ->
  Reference.all_chars no_word (Str.rstrip s) = true.
Proof.
  induction s as [|c s IH]; [reflexivity|]. cbn [Str.rstrip Reference.all_chars].
  intros H. apply andb_true_iff in H. destruct H as [Hc Hs]. specialize (IH Hs).
  destruct (Str.rstrip s) as [|d t].
  - destruct (Str.is_space c); [reflexivity|].
    cbn [Reference.all_chars]. apply andb_true_iff. split; [exact Hc | reflexivity].
  - change (Reference.all_chars no_word (String c (String d t)))
      with (no_word c && Reference.all_chars no_word (String d t)).
    apply andb_true_iff. split; [exact Hc | exact IH].
Qed.

(** What occurs in a text without word characters has none. *)
Lemma no_word_part (t s : string) :
  Reference.all_chars no_word s = true -> Str.contains t s = true ->
  Reference.all_chars no_word t = true.
Proof.
  intros Hs Ht. apply contains_spec in Ht. destruct Ht as (before & after & ->).
  rewrite !all_chars_append in Hs.
  apply andb_true_iff in Hs. destruct Hs as [_ Hs].
  apply andb_true_iff in Hs. apply Hs.
Qed.

Lemma no_term_occurs (terms : list string) (query : string) :
  Reference.all_chars no_word query = true ->
  forallb (fun term => negb (Reference.all_chars no_word term)) terms = true ->
  existsb (fun term => Str.contains term query) terms = false.
Proof.
  intros Hq. induction terms as [|term terms IH]; [reflexivity|].
  cbn [forallb existsb]. intros H. apply andb_true_iff in H. destruct H as [Hterm Hterms].
  rewrite (IH Hterms), orb_false_r.
  destruct (Str.contains term query) eqn:Hc; [|reflexivity].
  rewrite (no_word_part _ _ Hq Hc) in Hterm. discriminate Hterm.
Qed.

Lemma triggered_none (table : list (string * list string)) (query : string) :
  Reference.all_chars no_word query = true ->
  Reference.terms_have_words table = true ->
  triggered table query = [].
Proof.
  intros Hq. unfold triggered, Reference.terms_have_words.
  induction table as [|[name terms] table IH]; [reflexivity|].
  cbn [forallb flat_map snd]. intros H. apply andb_true_iff in H. destruct H as [Hterms Htable].
  rewrite (no_term_occurs _ _ Hq Hterms), (IH Htable). reflexivity.
Qed.

Lemma first_vibe_none (table : list (string * list string)) (query : string) :
  Reference.all_chars no_word query = true ->
  Reference.terms_have_words table = true ->
  first_vibe table query = None.
Proof.
  intros Hq. unfold Reference.terms_have_words.
  induction table as [|[name terms] table IH]; [reflexivity|].
  cbn [forallb first_vibe snd]. intros H. apply andb_true_iff in H.
  destruct H as [Hterms Htable].
  rewrite (no_term_occurs _ _ Hq Hterms). apply IH, Htable.
Qed.

(** Every success of [run] is a success of its continuation on the rest
    of the text. *)
Lemma run_rest (r : regex) :
  forall (prev : option ascii) (s cap : string)
         (k : option ascii -> string -> string -> option answer) (ans : answer),
    run r prev s cap k = Some ans ->
    exists pre s' p' cap', s = String.append pre s' /\ k p' s' cap' = Some ans.
Proof.
  induction r as [|a|a|a|r IH|r1 IH1 r2 IH2|r IH|]; intros prev s cap k ans; cbn [run].
  - intros H. exists EmptyString, s, prev, cap. split; [reflexivity | exact H].
  - destruct s as [|c s]; [discriminate|]. destruct (atom_matches a c); [|discriminate].
    intros H. exists (String c EmptyString), s, (Some c), cap.
    split; [reflexivity | exact H].
  - intros H. apply star_inv in H. destruct H as (pre & rest & p' & -> & _ & Hk).
    exists pre, rest, p', cap. split; [reflexivity | exact Hk].
  - destruct s as [|c s]; [discriminate|]. destruct (atom_matches a c); [|discriminate].
    intros H. apply star_inv in H. destruct H as (pre & rest & p' & -> & _ & Hk).
    exists (String c pre), rest, p', cap. split; [reflexivity | exact Hk].
  - destruct (run r prev s cap k) as [x|] eqn:Hrun.
    + intros [= ->]. apply (IH _ _ _ _ _ Hrun).
    + intros H. exists EmptyString, s, prev, cap. split; [reflexivity | exact H].
  - intros H. apply IH1 in H. destruct H as (pre1 & s1 & p1 & cap1 & -> & H).
    apply IH2 in H. destruct H as (pre2 & s2 & p2 & cap2 & -> & H).
    exists (String.append pre1 pre2), s2, p2, cap2.
    split; [symmetry; apply append_assoc | exact H].
  - intros H. apply IH in H. destruct H as (pre & s' & p' & cap' & Heq & H).
    eexists pre, s', p', _. split; [exact Heq | exact H].
  - destruct (xorb _ _); [|discriminate].
    intros H. exists EmptyString, s, prev, cap. split; [reflexivity | exact H].
Qed.

Lemma atom_of_word_matches (a : atom) (c : ascii) :
  Reference.atom_of_word a = true -> atom_matches a c = true -> Str.is_word c = true.
Proof.
  destruct a as [d| | |]; cbn [Reference.atom_of_word atom_matches].
  - intros Hd Heq. apply Ascii.eqb_eq in Heq. subst d. exact Hd.
  - intros _ Hc. unfold Str.is_word. rewrite Hc, orb_true_r. reflexivity.
  - discriminate.
  - intros _ Hc. exact Hc.
Qed.

(** A pattern that needs a word character matches nowhere in a text that
    has none. *)
Lemma run_needs_word (r : regex) :
  Reference.needs_word r = true ->
  forall (prev : option ascii) (s cap : string)
         (k : option ascii -> string -> string -> option answer),
    Reference.all_chars no_word s = true -> run r prev s cap k = None.
Proof.
  induction r as [|a|a|a|r IH|r1 IH1 r2 IH2|r IH|]; cbn [Reference.needs_word];
    try discriminate; intros Hr prev s cap k Hs; cbn [run].
  - destruct s as [|c s]; [reflexivity|]. destruct (atom_matches a c) eqn:Hc; [|reflexivity].
    cbn [Reference.all_chars] in Hs. rewrite (atom_of_word_matches _ _ Hr Hc) in Hs.
    discriminate Hs.
  - destruct s as [|c s]; [reflexivity|]. destruct (atom_matches a c) eqn:Hc; [|reflexivity].
    cbn [Reference.all_chars] in Hs. rewrite (atom_of_word_matches _ _ Hr Hc) in Hs.
    discriminate Hs.
  - destruct (Reference.needs_word r1) eqn:H1; [apply IH1; [reflexivity | exact Hs]|].
    cbn [orb] in Hr.
    destruct (run r1 prev s cap (fun p s' cap' => run r2 p s' cap' k)) as [ans|] eqn:Hrun;
      [|reflexivity].
    apply run_rest in Hrun. destruct Hrun as (pre & s' & p' & cap' & -> & Hk).
    rewrite all_chars_append in Hs. apply andb_true_iff in Hs. destruct Hs as [_ Hs].
    rewrite (IH2 Hr _ _ _ _ Hs) in Hk. discriminate Hk.
  - apply IH; assumption.
Qed.

Lemma findall_none (r : regex) :
  Reference.needs_word r = true ->
  forall (s : string) (prev : option ascii) (skip : nat),
    Reference.all_chars no_word s = true -> findall_from r prev s skip = [].
Proof.
  intros Hr.
  assert (Hnone : forall prev s, Reference.all_chars no_word s = true ->
                                 match_here r prev s = None).
  { intros prev s Hs. unfold match_here. rewrite (run_needs_word r Hr _ _ _ _ Hs).
    reflexivity. }
  induction s as [|c s IH]; intros prev skip Hs; cbn [findall_from].
  - destruct skip; [rewrite (Hnone _ _ Hs)|]; reflexivity.
  - assert (Hs' : Reference.all_chars no_word s = true).
    { cbn [Reference.all_chars] in Hs. apply andb_true_iff in Hs. apply Hs. }
    destruct skip as [|skip]; [rewrite (Hnone _ _ Hs)|]; apply IH, Hs'.
Qed.

Lemma extract_runtime_none (query : string) :
  Reference.all_chars no_word query = true -> _extract_runtime query = (None, None).
Proof.
  intros Hq. unfold _extract_runtime.
  assert (Hps : forallb (fun p => Reference.needs_word (compiled p)) runtime_patterns = true)
    by (vm_compute; reflexivity).
  revert Hps. generalize (@None Z, @None Z). generalize runtime_patterns.
  induction l as [|p ps IH]; intros bounds Hps; [reflexivity|].
  cbn [forallb] in Hps. apply andb_true_iff in Hps. destruct Hps as [Hp Hps].
  cbn [fold_left]. unfold runtime_step at 2. unfold findall.
  rewrite (findall_none _ Hp _ _ _ Hq). apply IH, Hps.
Qed.

Lemma extract_year_none (query : string) :
  Reference.all_chars no_word query = true -> _extract_year query = (None, None).
Proof.
  intros Hq. unfold _extract_year.
  assert (Hps : forallb (fun p => Reference.needs_word (compiled p)) year_patterns = true)
    by (vm_compute; reflexivity).
  revert Hps. generalize (@None Z, @None Z). generalize year_patterns.
  induction l as [|p ps IH]; intros bounds Hps; [reflexivity|].
  cbn [forallb] in Hps. apply andb_true_iff in Hps. destruct Hps as [Hp Hps].
  cbn [fold_left]. unfold findall at 2.
  rewrite (findall_none _ Hp _ _ _ Hq). cbn [fold_left]. apply IH, Hps.
Qed.

Lemma extract_keywords_none (query : string) :
  Reference.all_chars no_word query = true -> _extract_keywords query = [].
Proof.
  intros Hq. unfold _extract_keywords, findall. cbv zeta.
  rewrite (findall_none word_pattern); [reflexivity | reflexivity|].
  rewrite no_word_lower. exact Hq.
Qed.

(** C9, the claim as worded. A query of words the interpreter does not
    know does not give all-empty filters: its words of three characters
    or more that are no stop words are kept as keywords, a run of
    underscores is such a word, and a run of digits gives year bounds. *)
Lemma parse_query_unrecognised_counterexample :
  keywords (parse_query "find xyz movies with abc actor" TEXT) = ["xyz"; "abc"; "actor"] /\
  parse_query "find xyz movies with abc actor" TEXT <> no_filters /\
  keywords (parse_query "___" TEXT) = ["___"] /\
  year_min (parse_query "12345" TEXT) = Some 1234%Z /\
  year_max (parse_query "12345" TEXT) = Some 1234%Z /\
  ~ (forall query, parse_query query TEXT = no_filters).
Proof.
  assert (H : parse_query "find xyz movies with abc actor" TEXT <> no_filters).
  { intros Heq. apply (f_equal keywords) in Heq. vm_compute in Heq. discriminate Heq. }
  split; [vm_compute; reflexivity|]. split; [exact H|].
  split; [vm_compute; reflexivity|]. split; [vm_compute; reflexivity|].
  split; [vm_compute; reflexivity|].
  intros Hall. apply H, Hall.
Qed.

(** C9, amended. Parsing the empty query string never fails and yields
    all-empty filters: no genres, no actors, no keywords, no mood and no
    duration or year bounds. So does every query that has no word in it:
    a text of the 7-bit character set without a letter, a digit or an
    underscore, such as blanks and punctuation marks. *)
Theorem parse_query_without_words (query : string) (query_type : QueryType) :
  Reference.without_words query = true ->
  parse_query query query_type = no_filters /\
  parse_query "" query_type = no_filters.
Proof.
  assert (Hany : forall q, Reference.without_words q = true ->
                           parse_query q query_type = no_filters).
  { intros q Hq. apply without_words_no_word in Hq.
    assert (Hlower : Reference.all_chars no_word (Str.strip (Str.lower q)) = true).
    { unfold Str.strip. apply no_word_rstrip, no_word_lstrip.
      rewrite no_word_lower. exact Hq. }
    unfold parse_query. cbv zeta.
    rewrite (extract_runtime_none _ Hlower), (extract_year_none _ Hlower),
      (extract_keywords_none _ Hlower).
    unfold _extract_genres, _extract_actors, _extract_vibe.
    rewrite (triggered_none genre_mapping _ Hlower) by (vm_compute; reflexivity).
    rewrite (triggered_none actor_mapping _ Hlower) by (vm_compute; reflexivity).
    rewrite (first_vibe_none vibe_keywords _ Hlower) by (vm_compute; reflexivity).
    reflexivity. }
  intros Hquery. split; [apply Hany, Hquery | apply Hany; reflexivity].
Qed.

Lemma parse_query_without_words_witness :
  parse_query " ?! ... -- " VOICE = no_filters /\ parse_query "" VOICE = no_filters.
Proof.
  apply (parse_query_without_words " ?! ... -- " VOICE). reflexivity.
Defined.

End WithoutWords.
